(** * Escrow pallet of hmt-substrate: a shallow embedding in Rocq

    This development models [pallets/escrow/src/lib.rs]: the escrow
    records, the trust registry, the payout engine ([finalize_payouts])
    and the dispatchable calls, over an explicit pallet state together
    with the free-balance ledger of [pallet_balances].

    Conventions:
    - [u64], [u128], [u32] and [u8] values are [Z]; wrap-around and
      saturation are written out ([wrap], [sat_add], [sat_sub]).
    - The mock runtime of the pallet ([mock.rs]) fixes
      [Balance = Moment = AccountId = u64]; we use it for all concrete
      instances.
    - A dispatchable is a function [State -> result * State].  In FRAME
      2.0 a failing dispatchable does not revert the storage writes it
      performed before failing; only [with_transaction_result] reverts.
    - The caller is the account of a signed origin; [ensure_signed]
      failures belong to the dispatch framework and are not modelled. *)

From Stdlib Require Import ZArith List Lia Bool Sorting.Sorted.
From stdpp Require Import base gmap list.
Import ListNotations.
Open Scope Z_scope.

(* ------------------------------------------------------------------ *)
(** ** Machine integers *)

Definition U8_MAX : Z := 2 ^ 8 - 1.
Definition U32_MAX : Z := 2 ^ 32 - 1.
Definition U64_MAX : Z := 2 ^ 64 - 1.
Definition U128_MAX : Z := 2 ^ 128 - 1.

(** Release-mode [+] on a [bits]-bit unsigned integer. *)
Definition wrap (bits : Z) (x : Z) : Z := x mod 2 ^ bits.

(** [Saturating::saturating_add] / [saturating_sub] for an unsigned
    integer whose maximum is [max]. *)
Definition sat_add_max (max a b : Z) : Z := Z.min (a + b) max.
Definition sat_sub (a b : Z) : Z := Z.max (a - b) 0.

(** [BalanceOf<T>] is [u64] in the mock runtime. *)
Definition Balance_MAX : Z := U64_MAX.
Definition sat_add (a b : Z) : Z := sat_add_max Balance_MAX a b.
Definition sat_mul (a b : Z) : Z := Z.min (a * b) Balance_MAX.

(** The [for a in amounts.iter()] loop summing with [saturating_add]. *)
Definition saturating_sum (l : list Z) : Z := fold_left sat_add l 0.

(** Exact (mathematical) sum. *)
Definition sum_Z (l : list Z) : Z := fold_right Z.add 0 l.

(* ------------------------------------------------------------------ *)
(** ** [Percent] (sp-arithmetic) *)

(** A [Percent] is its [u8] number of parts per hundred. *)
Definition Percent := Z.
Definition Percent_ACCURACY : Z := 100.
Definition deconstruct (p : Percent) : Z := p.

(** [Percent::mul_floor(x)], as [overflow_prune_mul] computes it:
    [(x / 100) * p] plus the floored correction on the remainder. *)
Definition mul_floor (p : Percent) (x : Z) : Z :=
  sat_add (sat_mul (x / Percent_ACCURACY) (deconstruct p))
          ((x mod Percent_ACCURACY) * deconstruct p / Percent_ACCURACY).

(* ------------------------------------------------------------------ *)
(** ** [finalize_payouts] *)

(** The [map] closure of [finalize_payouts], threading the two running
    fee totals it mutates. *)
Fixpoint finalize_go (reputation_stake recording_stake : Percent)
    (reputation_fee_total recording_fee_total : Z) (amounts : list Z)
    : Z * Z * list Z :=
  match amounts with
  | [] => (reputation_fee_total, recording_fee_total, [])
  | amount :: rest =>
      let reputation_fee := mul_floor reputation_stake amount in
      let recording_fee := mul_floor recording_stake amount in
      let amount_without_fee :=
        sat_sub (sat_sub amount reputation_fee) recording_fee in
      let '(rt, ct, finals) :=
        finalize_go reputation_stake recording_stake
          (sat_add reputation_fee_total reputation_fee)
          (sat_add recording_fee_total recording_fee) rest in
      (rt, ct, amount_without_fee :: finals)
  end.

(* ------------------------------------------------------------------ *)
(** ** Data model *)

Definition EscrowId := Z.
Definition FactoryId := Z.
Definition AccountId := Z.
Definition Moment := Z.

Inductive EscrowStatus := Pending | Partial | Paid | Complete | Cancelled.

Definition EscrowStatus_eqb (a b : EscrowStatus) : bool :=
  match a, b with
  | Pending, Pending | Partial, Partial | Paid, Paid
  | Complete, Complete | Cancelled, Cancelled => true
  | _, _ => false
  end.

Record EscrowInfo := mkEscrowInfo {
  status : EscrowStatus;
  end_time : Moment;
  manifest_url : list Byte.byte;
  manifest_hash : list Byte.byte;
  reputation_oracle : AccountId;
  recording_oracle : AccountId;
  reputation_oracle_stake : Percent;
  recording_oracle_stake : Percent;
  canceller : AccountId;
  account : AccountId;
  factory : FactoryId
}.

Definition with_status (e : EscrowInfo) (st : EscrowStatus) : EscrowInfo :=
  {| status := st; end_time := end_time e; manifest_url := manifest_url e;
     manifest_hash := manifest_hash e; reputation_oracle := reputation_oracle e;
     recording_oracle := recording_oracle e;
     reputation_oracle_stake := reputation_oracle_stake e;
     recording_oracle_stake := recording_oracle_stake e;
     canceller := canceller e; account := account e; factory := factory e |}.

Record ResultInfo := mkResultInfo {
  results_url : list Byte.byte;
  results_hash : list Byte.byte
}.

Module RawEvent.
Inductive t :=
  | Pending (id : EscrowId) (creator : AccountId) (url hash : list Byte.byte)
      (escrow_account : AccountId)
  | IntermediateResults (id : EscrowId) (url hash : list Byte.byte)
  | BulkPayout (id : EscrowId)
  | FactoryCreated (id : FactoryId) (creator : AccountId).
End RawEvent.

Inductive Error :=
  | StakeOutOfBounds | Overflow | MissingEscrow | NonTrustedAccount
  | OutOfFunds | EscrowExpired | EscrowNotPaid | EscrowClosed
  | MismatchBulkTransfer | TooManyTos | TransferTooBig | StringSize
  | TooManyHandlers | FactoryOutOfBounds | FactoryDoesNotExist
  (** errors of [pallet_balances::transfer] *)
  | BalancesInsufficientBalance | BalancesOverflow.

(** The pallet's storage items, the free balances of [pallet_balances],
    the [pallet_timestamp] time and the [frame_system] event log. *)
Record State := mkState {
  Counter : EscrowId;
  FactoryCounter : FactoryId;
  Escrows : gmap EscrowId EscrowInfo;
  EscrowFactory : gmap FactoryId (list EscrowId);
  FinalResults : gmap EscrowId ResultInfo;
  TrustedHandlers : gmap (EscrowId * AccountId) bool;
  HandlersCount : gmap EscrowId Z;
  Balances : gmap AccountId Z;
  Now : Moment;
  Events : list RawEvent.t
}.

Definition set_Counter (c : Z) (s : State) : State :=
  mkState c (FactoryCounter s) (Escrows s) (EscrowFactory s) (FinalResults s)
    (TrustedHandlers s) (HandlersCount s) (Balances s) (Now s) (Events s).
Definition set_FactoryCounter (c : Z) (s : State) : State :=
  mkState (Counter s) c (Escrows s) (EscrowFactory s) (FinalResults s)
    (TrustedHandlers s) (HandlersCount s) (Balances s) (Now s) (Events s).
Definition set_Escrows (m : gmap EscrowId EscrowInfo) (s : State) : State :=
  mkState (Counter s) (FactoryCounter s) m (EscrowFactory s) (FinalResults s)
    (TrustedHandlers s) (HandlersCount s) (Balances s) (Now s) (Events s).
Definition set_EscrowFactory (m : gmap FactoryId (list EscrowId)) (s : State) : State :=
  mkState (Counter s) (FactoryCounter s) (Escrows s) m (FinalResults s)
    (TrustedHandlers s) (HandlersCount s) (Balances s) (Now s) (Events s).
Definition set_FinalResults (m : gmap EscrowId ResultInfo) (s : State) : State :=
  mkState (Counter s) (FactoryCounter s) (Escrows s) (EscrowFactory s) m
    (TrustedHandlers s) (HandlersCount s) (Balances s) (Now s) (Events s).
Definition set_TrustedHandlers (m : gmap (EscrowId * AccountId) bool) (s : State) : State :=
  mkState (Counter s) (FactoryCounter s) (Escrows s) (EscrowFactory s)
    (FinalResults s) m (HandlersCount s) (Balances s) (Now s) (Events s).
Definition set_HandlersCount (m : gmap EscrowId Z) (s : State) : State :=
  mkState (Counter s) (FactoryCounter s) (Escrows s) (EscrowFactory s)
    (FinalResults s) (TrustedHandlers s) m (Balances s) (Now s) (Events s).
Definition set_Balances (m : gmap AccountId Z) (s : State) : State :=
  mkState (Counter s) (FactoryCounter s) (Escrows s) (EscrowFactory s)
    (FinalResults s) (TrustedHandlers s) (HandlersCount s) m (Now s) (Events s).
Definition set_Now (t : Moment) (s : State) : State :=
  mkState (Counter s) (FactoryCounter s) (Escrows s) (EscrowFactory s)
    (FinalResults s) (TrustedHandlers s) (HandlersCount s) (Balances s) t (Events s).
Definition set_Events (l : list RawEvent.t) (s : State) : State :=
  mkState (Counter s) (FactoryCounter s) (Escrows s) (EscrowFactory s)
    (FinalResults s) (TrustedHandlers s) (HandlersCount s) (Balances s) (Now s) l.

(** Runtime configuration ([Trait] constants).  [AccountBytes] is the
    width of [T::AccountId]'s encoding (8 for the mock's [u64], 32 for
    [AccountId32]). *)
Record Config := mkConfig {
  StandardDuration : Moment;
  StringLimit : nat;
  BulkBalanceLimit : Z;
  BulkAccountsLimit : nat;
  HandlersLimit : Z;
  AccountBytes : nat
}.

(* ------------------------------------------------------------------ *)
(** ** A state and error monad for dispatchables *)

Inductive result (A : Type) := Ok (a : A) | Err (e : Error).
Arguments Ok {A} a.
Arguments Err {A} e.

Definition DispatchResult := result unit.

(** The state is returned also on error: without a transactional
    layer, the writes performed before the error persist. *)
Definition M (A : Type) := State -> result A * State.

Definition ret {A} (a : A) : M A := fun s => (Ok a, s).
Definition fail {A} (e : Error) : M A := fun s => (Err e, s).
Definition bind {A B} (m : M A) (k : A -> M B) : M B :=
  fun s => match m s with
           | (Ok a, s') => k a s'
           | (Err e, s') => (Err e, s')
           end.
Definition get : M State := fun s => (Ok s, s).
Definition modify (f : State -> State) : M unit := fun s => (Ok tt, f s).
Definition ensure (b : bool) (e : Error) : M unit :=
  if b then ret tt else fail e.

Notation "x <- m ;; k" := (bind m (fun x => k))
  (at level 100, m at next level, right associativity).
Notation "m ;; k" := (bind m (fun _ => k))
  (at level 100, right associativity).

Definition deposit_event (ev : RawEvent.t) : M unit :=
  modify (fun s => set_Events (Events s ++ [ev]) s).

(* ------------------------------------------------------------------ *)
(** ** The ledger: [pallet_balances] *)

Definition free_balance (s : State) (a : AccountId) : Z :=
  default 0 (Balances s !! a).

(** [Currency::transfer(from, to, value, AllowDeath)] of
    [pallet_balances] with the mock's existential deposit 0 and no locks:
    zero or self transfers succeed without effect, otherwise
    [checked_sub] on the sender and [checked_add] on the receiver. *)
Definition transfer (from to : AccountId) (value : Z) : M unit :=
  fun s =>
    if (value =? 0) || (from =? to) then (Ok tt, s) else
    let fb := free_balance s from in
    if fb <? value then (Err BalancesInsufficientBalance, s) else
    let tb := free_balance s to in
    if U64_MAX <? tb + value then (Err BalancesOverflow, s) else
    (Ok tt, set_Balances (<[to := tb + value]> (<[from := fb - value]> (Balances s))) s).

(* ------------------------------------------------------------------ *)
(** ** Helpers of [impl<T: Trait> Module<T>] *)

Definition MAX_ESCROWS_PER_FACTORY : nat := 20.

(** [ModuleId::TYPE_ID = *b"modl"] and [MODULE_ID = *b"escrowhp"], as
    byte values. *)
Definition TYPE_ID : list Z := [109; 111; 100; 108].
Definition MODULE_ID : list Z := [101; 115; 99; 114; 111; 119; 104; 112].

(** SCALE encoding of a [u128] (little endian) and decoding of an
    account id of [width] bytes (little endian). *)
Definition le_bytes (n : nat) (x : Z) : list Z :=
  map (fun i => Z.land (Z.shiftr x (8 * Z.of_nat i)) 255) (seq 0 n).
Definition le_decode (bs : list Z) : Z :=
  fold_right (fun b acc => b + 256 * acc) 0 bs.

(** [AccountIdConversion::into_sub_account]: encode
    [(TYPE_ID, module_id, sub)] and decode an account id from it through
    [TrailingZeroInput] (missing bytes read as zero, extra bytes
    ignored). *)
Definition into_sub_account (width : nat) (module_id : list Z) (sub : Z) : AccountId :=
  let enc := TYPE_ID ++ module_id ++ le_bytes 16 sub in
  le_decode (firstn width (enc ++ repeat 0 width)).

Definition account_id_for (cfg : Config) (id : EscrowId) : AccountId :=
  into_sub_account (AccountBytes cfg) MODULE_ID id.

Definition is_trusted_handler (s : State) (id : EscrowId) (who : AccountId) : bool :=
  default false (TrustedHandlers s !! (id, who)).

Definition handlers_count (s : State) (id : EscrowId) : Z :=
  default 0 (HandlersCount s !! id).

Definition do_add_trusted_handlers (id : EscrowId) (trusted : list AccountId) : M unit :=
  modify (fun s => set_TrustedHandlers
    (fold_left (fun m trust => <[(id, trust) := true]> m) trusted (TrustedHandlers s)) s).

Definition ensure_trusted (who : AccountId) (id : EscrowId) : M AccountId :=
  s <- get ;;
  ensure (is_trusted_handler s id who) NonTrustedAccount ;;
  ret who.

Definition get_balance (escrow : EscrowInfo) : M Z :=
  s <- get ;; ret (free_balance s (account escrow)).

(** [Self::escrow(id).ok_or(Error::<T>::MissingEscrow)?] *)
Definition get_escrow (id : EscrowId) : M EscrowInfo :=
  s <- get ;;
  match Escrows s !! id with
  | Some e => ret e
  | None => fail MissingEscrow
  end.

Definition is_open_status (st : EscrowStatus) : bool :=
  match st with Pending | Partial => true | _ => false end.

Definition get_open_escrow (id : EscrowId) : M EscrowInfo :=
  escrow <- get_escrow id ;;
  s <- get ;;
  ensure (Now s <? end_time escrow) EscrowExpired ;;
  ensure (is_open_status (status escrow)) EscrowClosed ;;
  ret escrow.

Definition finalize_payouts (escrow : EscrowInfo) (amounts : list Z) : Z * Z * list Z :=
  finalize_go (reputation_oracle_stake escrow) (recording_oracle_stake escrow) 0 0 amounts.

Fixpoint transfer_all (from : AccountId) (l : list (AccountId * Z)) : M unit :=
  match l with
  | [] => ret tt
  | (to, value) :: rest => transfer from to value ;; transfer_all from rest
  end.

(** [do_transfer_bulk]: aborts at the first failing transfer without
    reverting the earlier ones. *)
Definition do_transfer_bulk (cfg : Config) (from : AccountId)
    (tos : list AccountId) (values : list Z) : M unit :=
  ensure (length tos <=? BulkAccountsLimit cfg)%nat TooManyTos ;;
  ensure (length tos =? length values)%nat MismatchBulkTransfer ;;
  ensure (saturating_sum values <=? BulkBalanceLimit cfg) TransferTooBig ;;
  transfer_all from (combine tos values).

(** [with_transaction_result]: commit on [Ok], roll back every write on
    [Err]. *)
Definition with_transaction_result {R} (f : M R) : M R :=
  fun s => match f s with
           | (Ok r, s') => (Ok r, s')
           | (Err e, _) => (Err e, s)
           end.

(** [<[T]>::binary_search] as implemented by the Rust standard library
    of the time: [Ok index] is [inl], [Err index] is [inr]. *)
Fixpoint binary_search_loop (fuel : nat) (l : list Z) (x : Z) (base size : nat) : nat :=
  match fuel with
  | O => base
  | S fuel' =>
      if (1 <? size)%nat then
        let half := (size / 2)%nat in
        let mid := (base + half)%nat in
        let base' := if x <? nth mid l 0 then base else mid in
        binary_search_loop fuel' l x base' (size - half)
      else base
  end.

Definition binary_search (l : list Z) (x : Z) : nat + nat :=
  match l with
  | [] => inr 0%nat
  | _ =>
      let base := binary_search_loop (length l) l x 0 (length l) in
      let y := nth base l 0 in
      if y =? x then inl base
      else if y <? x then inr (S base) else inr base
  end.

(** [Vec::remove(index)] for an index in range. *)
Definition vec_remove (index : nat) (l : list Z) : list Z :=
  firstn index l ++ skipn (S index) l.

(* ------------------------------------------------------------------ *)
(** ** Dispatchable calls of [decl_module!] *)

Section Dispatchables.
Variable cfg : Config.

Definition create_factory (who : AccountId) : M unit :=
  s <- get ;;
  let id := FactoryCounter s in
  modify (set_FactoryCounter (wrap 128 (id + 1))) ;;
  modify (fun s => set_EscrowFactory (<[id := []]> (EscrowFactory s)) s) ;;
  deposit_event (RawEvent.FactoryCreated id who).

Definition create (who : AccountId) (manifest_url manifest_hash : list Byte.byte)
    (factory_id : FactoryId) (reputation_oracle recording_oracle : AccountId)
    (reputation_oracle_stake recording_oracle_stake : Percent) : M unit :=
  ensure (length manifest_url <=? StringLimit cfg)%nat StringSize ;;
  ensure (length manifest_hash <=? StringLimit cfg)%nat StringSize ;;
  s <- get ;;
  ensure (bool_decide (is_Some (EscrowFactory s !! factory_id))) FactoryDoesNotExist ;;
  let factory_escrows := default [] (EscrowFactory s !! factory_id) in
  ensure (length factory_escrows <=? MAX_ESCROWS_PER_FACTORY)%nat FactoryOutOfBounds ;;
  let total_stake := sat_add_max U8_MAX (deconstruct reputation_oracle_stake)
                       (deconstruct recording_oracle_stake) in
  ensure (total_stake <=? 100) StakeOutOfBounds ;;
  let end_time := wrap 64 (Now s + StandardDuration cfg) in
  let id := Counter s in
  modify (set_Counter (wrap 128 (id + 1))) ;;
  let trusted := [recording_oracle; reputation_oracle; who] in
  modify (fun s => set_HandlersCount
            (<[id := Z.of_nat (length trusted)]> (HandlersCount s)) s) ;;
  do_add_trusted_handlers id trusted ;;
  let account := account_id_for cfg id in
  let new_escrow :=
    {| status := Pending; end_time := end_time;
       manifest_url := manifest_url; manifest_hash := manifest_hash;
       reputation_oracle := reputation_oracle; recording_oracle := recording_oracle;
       reputation_oracle_stake := reputation_oracle_stake;
       recording_oracle_stake := recording_oracle_stake;
       canceller := who; account := account; factory := factory_id |} in
  modify (fun s => set_Escrows (<[id := new_escrow]> (Escrows s)) s) ;;
  modify (fun s => set_EscrowFactory
            (<[factory_id := default [] (EscrowFactory s !! factory_id) ++ [id]]>
               (EscrowFactory s)) s) ;;
  deposit_event (RawEvent.Pending id who manifest_url manifest_hash account).

Definition add_trusted_handlers (who : AccountId) (id : EscrowId)
    (handlers : list AccountId) : M unit :=
  ensure_trusted who id ;;
  s <- get ;;
  let count := handlers_count s id in
  let new_count := sat_add_max U32_MAX count (wrap 32 (Z.of_nat (length handlers))) in
  ensure (new_count <=? HandlersLimit cfg) TooManyHandlers ;;
  do_add_trusted_handlers id handlers ;;
  modify (fun s => set_HandlersCount (<[id := new_count]> (HandlersCount s)) s).

(** [TrustedHandlers::remove_prefix(id)] *)
Definition remove_prefix (id : EscrowId) (m : gmap (EscrowId * AccountId) bool)
    : gmap (EscrowId * AccountId) bool :=
  filter (fun kv : (EscrowId * AccountId) * bool => kv.1.1 <> id) m.

Definition abort (who : AccountId) (id : EscrowId) : M unit :=
  escrow <- get_escrow id ;;
  ensure_trusted who id ;;
  ensure (negb (match status escrow with Complete | Paid => true | _ => false end))
    EscrowClosed ;;
  balance <- get_balance escrow ;;
  (if 0 <? balance then transfer (account escrow) (canceller escrow) balance
   else ret tt) ;;
  modify (fun s => set_Escrows (delete id (Escrows s)) s) ;;
  modify (fun s => set_FinalResults (delete id (FinalResults s)) s) ;;
  modify (fun s => set_TrustedHandlers (remove_prefix id (TrustedHandlers s)) s) ;;
  modify (fun s => set_HandlersCount (delete id (HandlersCount s)) s) ;;
  s <- get ;;
  let escrows := default [] (EscrowFactory s !! factory escrow) in
  modify (fun s => set_EscrowFactory (delete (factory escrow) (EscrowFactory s)) s) ;;
  match binary_search escrows id with
  | inr _ => fail MissingEscrow
  | inl index =>
      modify (fun s => set_EscrowFactory
                (<[factory escrow := vec_remove index escrows]> (EscrowFactory s)) s)
  end.

Definition cancel (who : AccountId) (id : EscrowId) : M unit :=
  escrow <- get_escrow id ;;
  ensure_trusted who id ;;
  ensure (is_open_status (status escrow)) EscrowClosed ;;
  balance <- get_balance escrow ;;
  ensure (0 <? balance) OutOfFunds ;;
  transfer (account escrow) (canceller escrow) balance ;;
  modify (fun s => set_Escrows (<[id := with_status escrow Cancelled]> (Escrows s)) s).

Definition complete (who : AccountId) (id : EscrowId) : M unit :=
  escrow <- get_escrow id ;;
  ensure_trusted who id ;;
  s <- get ;;
  ensure (Now s <? end_time escrow) EscrowExpired ;;
  ensure (EscrowStatus_eqb (status escrow) Paid) EscrowNotPaid ;;
  modify (fun s => set_Escrows (<[id := with_status escrow Complete]> (Escrows s)) s).

Definition note_intermediate_results (who : AccountId) (id : EscrowId)
    (url hash : list Byte.byte) : M unit :=
  ensure (length url <=? StringLimit cfg)%nat StringSize ;;
  ensure (length hash <=? StringLimit cfg)%nat StringSize ;;
  ensure_trusted who id ;;
  get_open_escrow id ;;
  deposit_event (RawEvent.IntermediateResults id url hash).

Definition store_final_results (who : AccountId) (id : EscrowId)
    (url hash : list Byte.byte) : M unit :=
  ensure (length url <=? StringLimit cfg)%nat StringSize ;;
  ensure (length hash <=? StringLimit cfg)%nat StringSize ;;
  ensure_trusted who id ;;
  get_open_escrow id ;;
  modify (fun s => set_FinalResults
            (<[id := {| results_url := url; results_hash := hash |}]> (FinalResults s)) s).

(** The status update at the end of [bulk_payout]. *)
Definition payout_status (st : EscrowStatus) (balance : Z) : EscrowStatus :=
  let st1 := if EscrowStatus_eqb st Pending then Partial else st in
  if (balance =? 0) && EscrowStatus_eqb st1 Partial then Paid else st1.

(** The closure passed to [with_transaction_result] in [bulk_payout]. *)
Definition bulk_payout_body (who : AccountId) (id : EscrowId)
    (recipients : list AccountId) (amounts : list Z) : M unit :=
  escrow <- get_open_escrow id ;;
  ensure_trusted who id ;;
  balance <- get_balance escrow ;;
  ensure (0 <? balance) OutOfFunds ;;
  let sum := saturating_sum amounts in
  if balance <? sum then fail OutOfFunds else
  let '(reputation_fee, recording_fee, final_amounts) := finalize_payouts escrow amounts in
  transfer (account escrow) (reputation_oracle escrow) reputation_fee ;;
  transfer (account escrow) (recording_oracle escrow) recording_fee ;;
  do_transfer_bulk cfg (account escrow) recipients final_amounts ;;
  balance' <- get_balance escrow ;;
  let escrow' := with_status escrow (payout_status (status escrow) balance') in
  modify (fun s => set_Escrows (<[id := escrow']> (Escrows s)) s) ;;
  deposit_event (RawEvent.BulkPayout id) ;;
  ret tt.

Definition bulk_payout (who : AccountId) (id : EscrowId)
    (recipients : list AccountId) (amounts : list Z) : M unit :=
  with_transaction_result (bulk_payout_body who id recipients amounts).

End Dispatchables.

(* ------------------------------------------------------------------ *)
(** ** Runtime: calls, execution and reachable states *)

(** The pallet's calls, plus the environment's steps: a
    [pallet_balances] transfer by any signed account and an advance of
    the [pallet_timestamp] time. *)
Inductive Call :=
  | call_create_factory (who : AccountId)
  | call_create (who : AccountId) (manifest_url manifest_hash : list Byte.byte)
      (factory_id : FactoryId) (reputation_oracle recording_oracle : AccountId)
      (reputation_oracle_stake recording_oracle_stake : Percent)
  | call_add_trusted_handlers (who : AccountId) (id : EscrowId) (handlers : list AccountId)
  | call_abort (who : AccountId) (id : EscrowId)
  | call_cancel (who : AccountId) (id : EscrowId)
  | call_complete (who : AccountId) (id : EscrowId)
  | call_note_intermediate_results (who : AccountId) (id : EscrowId) (url hash : list Byte.byte)
  | call_store_final_results (who : AccountId) (id : EscrowId) (url hash : list Byte.byte)
  | call_bulk_payout (who : AccountId) (id : EscrowId) (recipients : list AccountId)
      (amounts : list Z)
  | call_balances_transfer (who dest : AccountId) (value : Z)
  | call_set_timestamp (t : Moment).

Definition set_timestamp (t : Moment) : M unit :=
  s <- get ;;
  ensure (Now s <=? t) Overflow ;;
  modify (set_Now t).

Definition dispatch (cfg : Config) (c : Call) : M unit :=
  match c with
  | call_create_factory who => create_factory who
  | call_create who u h f rep rec ps qs => create cfg who u h f rep rec ps qs
  | call_add_trusted_handlers who id hs => add_trusted_handlers cfg who id hs
  | call_abort who id => abort who id
  | call_cancel who id => cancel who id
  | call_complete who id => complete who id
  | call_note_intermediate_results who id u h => note_intermediate_results cfg who id u h
  | call_store_final_results who id u h => store_final_results cfg who id u h
  | call_bulk_payout who id rs ams => bulk_payout cfg who id rs ams
  | call_balances_transfer who dest v => transfer who dest v
  | call_set_timestamp t => set_timestamp t
  end.

(** The state after a call: a failing call keeps the writes it performed
    before failing (FRAME 2.0 dispatch is not transactional). *)
Definition exec (cfg : Config) (c : Call) (s : State) : State := snd (dispatch cfg c s).

(** Empty pallet storage, some initial balances and time. *)
Definition genesis (balances : gmap AccountId Z) (t : Moment) : State :=
  mkState 0 0 ∅ ∅ ∅ ∅ ∅ balances t [].

(** [reachable cfg n s]: [s] results from a genesis state by [n] calls. *)
Inductive reachable (cfg : Config) : nat -> State -> Prop :=
  | reachable_genesis balances t : reachable cfg 0 (genesis balances t)
  | reachable_step n s c : reachable cfg n s -> reachable cfg (S n) (exec cfg c s).

(** The mock runtime ([mock.rs]); it declares no [HandlersLimit], for
    which we take 10. *)
Definition mock_cfg : Config :=
  {| StandardDuration := 1000; StringLimit := 10; BulkBalanceLimit := 999;
     BulkAccountsLimit := 10; HandlersLimit := 10; AccountBytes := 8 |}.

Definition mock_genesis : State := genesis {[1 := 1000]} 0.

(** The default escrow of the tests: [b"some.url"], [b"0xdev"], oracles 3
    and 4 with 10% each, created by account 1 in factory 0. *)
Definition some_url : list Byte.byte :=
  [Byte.x73; Byte.x6f; Byte.x6d; Byte.x65; Byte.x2e; Byte.x75; Byte.x72; Byte.x6c].
Definition dev_hash : list Byte.byte := [Byte.x30; Byte.x78; Byte.x64; Byte.x65; Byte.x76].

Definition scenario_created : State :=
  exec mock_cfg (call_create 1 some_url dev_hash 0 3 4 10 10)
    (exec mock_cfg (call_create_factory 1) mock_genesis).

Definition scenario_funded : State :=
  exec mock_cfg (call_balances_transfer 1 (account_id_for mock_cfg 0) 100) scenario_created.

(* ------------------------------------------------------------------ *)
(** ** Specification-side definitions and concrete states *)

(** The fee of the spec: [floor(p% * a)]. *)
Definition floor_fee (p : Percent) (a : Z) : Z := a * p / 100.

Definition u64 (x : Z) : Prop := 0 <= x <= U64_MAX.
Definition percent (p : Percent) : Prop := 0 <= p <= 100.

(** The net amount of the spec: [a - rep_fee - rec_fee], saturating. *)
Definition net_amount (p q : Percent) (a : Z) : Z :=
  sat_sub (sat_sub a (floor_fee p a)) (floor_fee q a).

(* ------------------------------------------------------------------ *)
(** ** Concrete states *)

(** An escrow of factory 0 created by account 1 with the whole payout as
    reputation fee (100% / 0%), whose custodial account holds the
    maximal [u64] balance. *)
Definition big_created : State :=
  exec mock_cfg (call_create 1 some_url dev_hash 0 3 4 100 0)
    (exec mock_cfg (call_create_factory 1) (genesis {[1 := U64_MAX]} 0)).

Definition big_funded : State :=
  exec mock_cfg (call_balances_transfer 1 (account_id_for mock_cfg 0) U64_MAX) big_created.

Definition big_escrow : EscrowInfo :=
  {| status := Pending; end_time := 1000; manifest_url := some_url;
     manifest_hash := dev_hash; reputation_oracle := 3; recording_oracle := 4;
     reputation_oracle_stake := 100; recording_oracle_stake := 0;
     canceller := 1; account := account_id_for mock_cfg 0; factory := 0 |}.

(** The escrow stored by [scenario_created]. *)
Definition scenario_escrow : EscrowInfo :=
  {| status := Pending; end_time := 1000; manifest_url := some_url;
     manifest_hash := dev_hash; reputation_oracle := 3; recording_oracle := 4;
     reputation_oracle_stake := 10; recording_oracle_stake := 10;
     canceller := 1; account := account_id_for mock_cfg 0; factory := 0 |}.

(** Account 6 holds [u64::MAX - 10] before the default escrow is
    funded with 100: its net payout of 40 overflows. *)
Definition overflow_funded : State :=
  let s := exec mock_cfg (call_create 1 some_url dev_hash 0 3 4 10 10)
             (exec mock_cfg (call_create_factory 1)
                (genesis (<[6 := U64_MAX - 10]> {[1 := 1000]}) 0)) in
  exec mock_cfg (call_balances_transfer 1 (account_id_for mock_cfg 0) 100) s.

(* ------------------------------------------------------------------ *)
(** ** Status graph, effects of a call and state invariants *)

(** The status graph of the spec, closed under reflexivity and
    transitivity: [Pending -> Partial -> Paid -> Complete],
    [Pending -> Cancelled], [Partial -> Cancelled]. *)
Definition status_forward (a b : EscrowStatus) : bool :=
  match a, b with
  | Pending, _ => true
  | Partial, Pending => false
  | Partial, _ => true
  | Paid, (Paid | Complete) => true
  | Complete, Complete => true
  | Cancelled, Cancelled => true
  | _, _ => false
  end.

Definition trust_all (id : EscrowId) (hs : list AccountId)
    (m : gmap (EscrowId * AccountId) bool) : gmap (EscrowId * AccountId) bool :=
  fold_left (fun m trust => <[(id, trust) := true]> m) hs m.

(** The ways one call can change [Escrows], [TrustedHandlers] and
    [Counter]. *)
Inductive escrow_effect (s s' : State) : Prop :=
  | eff_frame :
      Escrows s' = Escrows s -> TrustedHandlers s' = TrustedHandlers s ->
      Counter s' = Counter s -> escrow_effect s s'
  | eff_trust id who hs :
      is_trusted_handler s id who = true ->
      Escrows s' = Escrows s -> TrustedHandlers s' = trust_all id hs (TrustedHandlers s) ->
      Counter s' = Counter s -> escrow_effect s s'
  | eff_create e hs :
      status e = Pending ->
      Escrows s' = <[Counter s := e]> (Escrows s) ->
      TrustedHandlers s' = trust_all (Counter s) hs (TrustedHandlers s) ->
      Counter s' = wrap 128 (Counter s + 1) -> escrow_effect s s'
  | eff_remove id :
      Escrows s' = delete id (Escrows s) ->
      TrustedHandlers s' = remove_prefix id (TrustedHandlers s) ->
      Counter s' = Counter s -> escrow_effect s s'
  | eff_status id e st :
      Escrows s !! id = Some e -> status_forward (status e) st = true ->
      Escrows s' = <[id := with_status e st]> (Escrows s) ->
      TrustedHandlers s' = TrustedHandlers s ->
      Counter s' = Counter s -> escrow_effect s s'.

(** Every trust entry belongs to a stored escrow. *)
Definition trust_inv (s : State) : Prop :=
  forall id a, is_trusted_handler s id a = true -> Escrows s !! id <> None.

(** Escrow ids are allocated below [Counter], which counts the calls so
    far as long as it does not wrap. *)
Definition counter_inv (n : nat) (s : State) : Prop :=
  0 <= Counter s <= Z.of_nat n /\ forall k : EscrowId, Escrows s !! k <> None -> k < Counter s.


(** A relation between the state before and after some code. *)
Definition kept (P : State -> State -> Prop) {A} (m : M A) : Prop :=
  forall s, P s (snd (m s)).

(** The total of all free balances. *)
Definition total_of (m : gmap AccountId Z) : Z := map_fold (fun _ v acc => v + acc) 0 m.
Definition total_balance (s : State) : Z := total_of (Balances s).
Definition same_total (s s' : State) : Prop := total_balance s' = total_balance s.

(** The escrow lists of the factories and both counters are left as
    they are. *)
Definition same_registry (s s' : State) : Prop :=
  EscrowFactory s' = EscrowFactory s /\ FactoryCounter s' = FactoryCounter s /\
  Counter s' = Counter s.

(** No factory lists more than [MAX_ESCROWS_PER_FACTORY + 1] escrows. *)
Definition factory_size_inv (s : State) : Prop :=
  forall (f : FactoryId) l, EscrowFactory s !! f = Some l ->
    (length l <= S MAX_ESCROWS_PER_FACTORY)%nat.

(** The registry invariant of reachable states: both counters are
    bounded by the number of calls, they bound the ids in use, every
    factory's escrow list is strictly increasing, and every stored escrow
    is listed by its factory. *)
Definition registry_inv (n : nat) (s : State) : Prop :=
  0 <= Counter s <= Z.of_nat n /\ 0 <= FactoryCounter s <= Z.of_nat n /\
  (forall f : FactoryId, EscrowFactory s !! f <> None -> f < FactoryCounter s) /\
  (forall (f : FactoryId) l, EscrowFactory s !! f = Some l ->
     StronglySorted Z.lt l /\ Forall (fun k => k < Counter s) l) /\
  (forall (id : EscrowId) e, Escrows s !! id = Some e ->
     exists l, EscrowFactory s !! factory e = Some l /\ id ∈ l).

(** A factory of 20 escrows in the mock runtime. *)
Definition full_factory : State :=
  set_EscrowFactory {[0 := map Z.of_nat (seq 0 20)]} mock_genesis.

(** The funded escrow 0 of [scenario_funded], with the list of factory 0
    emptied. *)
Definition lost_factory_state : State := set_EscrowFactory {[0 := []]} scenario_funded.


(* ================================================================== *)
(** * Properties *)

Example scenario_a_run :
  let s := snd (bulk_payout mock_cfg 1 0 [5; 6] [50; 50] scenario_funded) in
  (fst (bulk_payout mock_cfg 1 0 [5; 6] [50; 50] scenario_funded) = Ok tt) /\
  map (free_balance s) [5; 6; 3; 4; account_id_for mock_cfg 0; 1] = [40; 40; 10; 10; 0; 900] /\
  option_map status (Escrows s !! 0) = Some Paid.
Proof. vm_compute. repeat split; reflexivity. Qed.


(* ------------------------------------------------------------------ *)
(** ** Arithmetic of the payout engine *)

Lemma floor_fee_bounds p a : percent p -> 0 <= a -> 0 <= floor_fee p a <= a.
Proof.
  unfold percent, floor_fee; intros Hp Ha; split.
  - apply Z.div_pos; nia.
  - apply Z.div_le_upper_bound; nia.
Qed.

Lemma mul_floor_spec p a : percent p -> u64 a -> mul_floor p a = floor_fee p a.
Proof.
  unfold percent, u64, mul_floor, floor_fee, sat_add, sat_add_max, sat_mul,
    deconstruct, Percent_ACCURACY, Balance_MAX, U64_MAX.
  intros Hp Ha.
  pose proof (Z.div_mod a 100 ltac:(lia)) as Hdm.
  pose proof (Z.mod_pos_bound a 100 ltac:(lia)) as Hr.
  set (q := a / 100) in *; set (r := a mod 100) in *.
  assert (Hq : 0 <= q) by (apply Z.div_pos; lia).
  assert (Hqp : q * p <= a) by nia.
  rewrite (Z.min_l (q * p)) by lia.
  assert (Heq : a * p / 100 = q * p + r * p / 100).
  { rewrite Hdm. replace ((100 * q + r) * p) with (q * p * 100 + r * p) by ring.
    rewrite Z.div_add_l by lia. reflexivity. }
  assert (Hle : a * p / 100 <= a) by (apply Z.div_le_upper_bound; nia).
  assert (Hrp : 0 <= r * p / 100) by (apply Z.div_pos; lia).
  rewrite <- Heq, Z.min_l by lia. reflexivity.
Qed.

Lemma two_fees_le p q a :
  percent p -> percent q -> p + q <= 100 -> 0 <= a -> floor_fee p a + floor_fee q a <= a.
Proof.
  unfold percent, floor_fee; intros Hp Hq Hpq Ha.
  pose proof (Z.mul_div_le (a * p) 100 ltac:(lia)).
  pose proof (Z.mul_div_le (a * q) 100 ltac:(lia)).
  nia.
Qed.

Lemma min_sat_step acc x rest :
  acc <= U64_MAX -> 0 <= x -> 0 <= rest ->
  Z.min (Z.min (acc + x) U64_MAX + rest) U64_MAX = Z.min (acc + (x + rest)) U64_MAX.
Proof. intros. destruct (Z.min_spec (acc + x) U64_MAX) as [[? ->]|[? ->]]; lia. Qed.

Lemma sum_Z_nonneg (l : list Z) : Forall (fun x => 0 <= x) l -> 0 <= sum_Z l.
Proof. induction 1; simpl; lia. Qed.

Lemma sum_Z_map_fee_nonneg p (l : list Z) :
  percent p -> Forall u64 l -> 0 <= sum_Z (map (floor_fee p) l).
Proof.
  intros Hp Hl. apply sum_Z_nonneg. apply Forall_map.
  eapply Forall_impl; [exact Hl|]. intros a [Ha _].
  apply (floor_fee_bounds p a Hp Ha).
Qed.

Lemma finalize_go_spec p q rt ct (amounts : list Z) :
  percent p -> percent q -> u64 rt -> u64 ct -> Forall u64 amounts ->
  finalize_go p q rt ct amounts =
    (Z.min (rt + sum_Z (map (floor_fee p) amounts)) U64_MAX,
     Z.min (ct + sum_Z (map (floor_fee q) amounts)) U64_MAX,
     map (net_amount p q) amounts).
Proof.
  intros Hp Hq. revert rt ct.
  induction amounts as [|a rest IH]; intros rt ct Hrt Hct Hall.
  - unfold u64 in *; simpl. rewrite !Z.add_0_r, !Z.min_l by lia. reflexivity.
  - inversion Hall as [|? ? Ha Hrest]; subst. simpl.
    rewrite (mul_floor_spec p a Hp Ha), (mul_floor_spec q a Hq Ha).
    pose proof (floor_fee_bounds p a Hp (proj1 Ha)).
    pose proof (floor_fee_bounds q a Hq (proj1 Ha)).
    pose proof (sum_Z_map_fee_nonneg p rest Hp Hrest).
    pose proof (sum_Z_map_fee_nonneg q rest Hq Hrest).
    unfold u64 in *.
    rewrite IH; [| unfold sat_add, sat_add_max, Balance_MAX; lia
                 | unfold sat_add, sat_add_max, Balance_MAX; lia | exact Hrest].
    unfold sat_add, sat_add_max, Balance_MAX.
    rewrite !min_sat_step by lia. reflexivity.
Qed.

Lemma net_amount_exact p q a :
  percent p -> percent q -> p + q <= 100 -> 0 <= a ->
  net_amount p q a = a - floor_fee p a - floor_fee q a.
Proof.
  intros Hp Hq Hpq Ha. pose proof (two_fees_le p q a Hp Hq Hpq Ha).
  pose proof (floor_fee_bounds p a Hp Ha). pose proof (floor_fee_bounds q a Hq Ha).
  unfold net_amount, sat_sub. lia.
Qed.

Lemma sum_Z_split p q (l : list Z) :
  percent p -> percent q -> p + q <= 100 -> Forall u64 l ->
  sum_Z (map (floor_fee p) l) + sum_Z (map (floor_fee q) l)
    + sum_Z (map (net_amount p q) l) = sum_Z l.
Proof.
  intros Hp Hq Hpq. induction 1 as [|a l Ha _ IH]; simpl; [reflexivity|].
  rewrite (net_amount_exact p q a Hp Hq Hpq (proj1 Ha)). lia.
Qed.

Lemma sum_Z_net_nonneg p q (l : list Z) :
  percent p -> percent q -> p + q <= 100 -> Forall u64 l ->
  0 <= sum_Z (map (net_amount p q) l).
Proof.
  intros Hp Hq Hpq Hl. apply sum_Z_nonneg, Forall_map.
  eapply Forall_impl; [exact Hl|]. intros a [Ha _].
  unfold net_amount, sat_sub. lia.
Qed.

(* ------------------------------------------------------------------ *)
(** ** Facts about the concrete states *)

Lemma scenario_created_escrow : Escrows scenario_created !! 0 = Some scenario_escrow.
Proof. vm_compute. reflexivity. Qed.

Lemma big_funded_escrow : Escrows big_funded !! 0 = Some big_escrow.
Proof. vm_compute. reflexivity. Qed.

Lemma big_funded_balance : free_balance big_funded (account_id_for mock_cfg 0) = U64_MAX.
Proof. vm_compute. reflexivity. Qed.

(* ------------------------------------------------------------------ *)
(** ** C4: the fee split of [finalize_payouts] *)

(** C4 (corrected).  For stakes [p], [q] in [0, 100] and [u64] amounts,
    [finalize_payouts] computes per amount [a] the fees
    [floor(p% * a)] and [floor(q% * a)] and the net amount [a] minus both
    fees with saturating subtraction; the fee totals are the per-entry
    fees summed with saturating addition, i.e. the exact sums clamped at
    [u64::MAX]. *)
Theorem finalize_payouts_split (e : EscrowInfo) (amounts : list Z) :
  percent (reputation_oracle_stake e) -> percent (recording_oracle_stake e) ->
  Forall u64 amounts ->
  finalize_payouts e amounts =
    (Z.min (sum_Z (map (floor_fee (reputation_oracle_stake e)) amounts)) U64_MAX,
     Z.min (sum_Z (map (floor_fee (recording_oracle_stake e)) amounts)) U64_MAX,
     map (net_amount (reputation_oracle_stake e) (recording_oracle_stake e)) amounts).
Proof.
  intros Hp Hq Hl. unfold finalize_payouts.
  rewrite finalize_go_spec; try assumption; try (unfold u64, U64_MAX; lia).
  reflexivity.
Qed.

Lemma finalize_payouts_split_witness :
  percent 100 /\ percent 0 /\ Forall u64 [50; 50] /\
  finalize_payouts big_escrow [50; 50] =
    (Z.min (sum_Z (map (floor_fee 100) [50; 50])) U64_MAX,
     Z.min (sum_Z (map (floor_fee 0) [50; 50])) U64_MAX,
     map (net_amount 100 0) [50; 50]).
Proof.
  split; [unfold percent; lia|]. split; [unfold percent; lia|].
  assert (Hl : Forall u64 [50; 50]) by (repeat constructor; unfold u64, U64_MAX; lia).
  split; [exact Hl|].
  apply (finalize_payouts_split big_escrow [50; 50]); [unfold percent; simpl; lia
    | unfold percent; simpl; lia | exact Hl].
Defined.

(** C4 counterexample: for two maximal amounts at a 100% reputation
    stake the returned reputation total is [u64::MAX], not the sum
    [2 * u64::MAX] of the per-entry fees. *)
Lemma finalize_payouts_total_not_sum :
  let '(reputation_fee_total, _, _) := finalize_payouts big_escrow [U64_MAX; U64_MAX] in
  reputation_fee_total = U64_MAX /\
  reputation_fee_total <> sum_Z (map (floor_fee 100) [U64_MAX; U64_MAX]).
Proof. vm_compute. split; [reflexivity | discriminate]. Qed.

(* ------------------------------------------------------------------ *)
(** ** C1: conservation of the fee split *)

(** C1 (corrected).  For an escrow whose stakes sum to at most 100 and
    [u64] amounts whose exact total fits in [u64], the split returned by
    [finalize_payouts] (the one [bulk_payout] transfers) conserves value
    exactly: reputation total + recording total + the net amounts equal
    the requested total. *)
Theorem finalize_payouts_conserves (e : EscrowInfo) (amounts : list Z) :
  percent (reputation_oracle_stake e) -> percent (recording_oracle_stake e) ->
  reputation_oracle_stake e + recording_oracle_stake e <= 100 ->
  Forall u64 amounts -> sum_Z amounts <= U64_MAX ->
  let '(reputation_fee_total, recording_fee_total, final_amounts) :=
    finalize_payouts e amounts in
  reputation_fee_total + recording_fee_total + sum_Z final_amounts = sum_Z amounts.
Proof.
  intros Hp Hq Hpq Hl Hsum.
  rewrite (finalize_payouts_split e amounts Hp Hq Hl).
  set (p := reputation_oracle_stake e) in *; set (q := recording_oracle_stake e) in *.
  pose proof (sum_Z_split p q amounts Hp Hq Hpq Hl).
  pose proof (sum_Z_map_fee_nonneg p amounts Hp Hl).
  pose proof (sum_Z_map_fee_nonneg q amounts Hq Hl).
  pose proof (sum_Z_net_nonneg p q amounts Hp Hq Hpq Hl).
  rewrite !Z.min_l by lia. lia.
Qed.

Lemma finalize_payouts_conserves_witness :
  percent 10 /\ percent 10 /\ 10 + 10 <= 100 /\ Forall u64 [50; 50] /\
  sum_Z [50; 50] <= U64_MAX /\
  (let '(r, c, f) := finalize_payouts scenario_escrow [50; 50] in
   r + c + sum_Z f = sum_Z [50; 50]).
Proof.
  assert (Hp : percent 10) by (unfold percent; lia).
  assert (Hl : Forall u64 [50; 50]) by (repeat constructor; unfold u64, U64_MAX; lia).
  split; [exact Hp|]. split; [exact Hp|]. split; [lia|]. split; [exact Hl|].
  split; [vm_compute; discriminate|].
  apply (finalize_payouts_conserves scenario_escrow [50; 50]);
    [exact Hp | exact Hp | simpl; lia | exact Hl | vm_compute; discriminate].
Defined.

(** C1 counterexample.  With a 100% reputation stake and a custodial
    balance of [u64::MAX], [bulk_payout] of [[u64::MAX; u64::MAX]] to
    accounts 5 and 6 succeeds (the saturating [sum] equals the balance,
    the saturating fee total equals the balance, the net amounts are 0),
    yet the split misses [u64::MAX] units, more than [2 * len amounts]. *)
Lemma bulk_payout_conservation_fails :
  fst (bulk_payout mock_cfg 1 0 [5; 6] [U64_MAX; U64_MAX] big_funded) = Ok tt /\
  Escrows big_funded !! 0 = Some big_escrow /\
  reputation_oracle_stake big_escrow + recording_oracle_stake big_escrow <= 100 /\
  (let '(r, c, f) := finalize_payouts big_escrow [U64_MAX; U64_MAX] in
   2 * 2 < sum_Z [U64_MAX; U64_MAX] - (r + c + sum_Z f)).
Proof.
  split; [vm_compute; reflexivity|]. split; [exact big_funded_escrow|].
  split; [simpl; lia|]. vm_compute. reflexivity.
Qed.

(* ------------------------------------------------------------------ *)
(** ** C2: [bulk_payout] is all or nothing *)

(** C2.  Whenever [bulk_payout] fails, with whatever error and at
    whatever point of the closure (also after the oracle-fee transfers),
    the resulting state is the state before the call: escrow records,
    result pointers, trust entries, balances, events, all of it. *)
Theorem bulk_payout_err_rollback (cfg : Config) (who : AccountId) (id : EscrowId)
    (recipients : list AccountId) (amounts : list Z) (s : State) (err : Error) :
  fst (bulk_payout cfg who id recipients amounts s) = Err err ->
  snd (bulk_payout cfg who id recipients amounts s) = s.
Proof.
  unfold bulk_payout, with_transaction_result.
  destruct (bulk_payout_body cfg who id recipients amounts s) as [[r|e] s']; simpl.
  - discriminate.
  - reflexivity.
Qed.

(** At [overflow_funded], the closure of [bulk_payout] fails after the
    two fee transfers and the payout to account 5 have been written;
    [bulk_payout] itself leaves the state unchanged. *)
Lemma bulk_payout_err_rollback_witness :
  free_balance overflow_funded 3 = 0 /\
  free_balance (snd (bulk_payout_body mock_cfg 1 0 [5; 6] [50; 50] overflow_funded)) 3 = 10 /\
  fst (bulk_payout mock_cfg 1 0 [5; 6] [50; 50] overflow_funded) = Err BalancesOverflow /\
  snd (bulk_payout mock_cfg 1 0 [5; 6] [50; 50] overflow_funded) = overflow_funded.
Proof.
  split; [vm_compute; reflexivity|].
  split; [vm_compute; reflexivity|].
  assert (H : fst (bulk_payout mock_cfg 1 0 [5; 6] [50; 50] overflow_funded)
              = Err BalancesOverflow) by (vm_compute; reflexivity).
  split; [exact H|].
  exact (bulk_payout_err_rollback mock_cfg 1 0 [5; 6] [50; 50] overflow_funded
           BalancesOverflow H).
Defined.

(* ------------------------------------------------------------------ *)
(** ** Anatomy of a successful [bulk_payout] *)

Lemma bulk_payout_ok_inv (cfg : Config) (who : AccountId) (id : EscrowId)
    (recipients : list AccountId) (amounts : list Z) (s s' : State) :
  bulk_payout cfg who id recipients amounts s = (Ok tt, s') ->
  exists e s1 s2 s3,
    Escrows s !! id = Some e /\ Now s < end_time e /\
    is_open_status (status e) = true /\ is_trusted_handler s id who = true /\
    0 < free_balance s (account e) /\
    saturating_sum amounts <= free_balance s (account e) /\
    transfer (account e) (reputation_oracle e) (finalize_payouts e amounts).1.1 s
      = (Ok tt, s1) /\
    transfer (account e) (recording_oracle e) (finalize_payouts e amounts).1.2 s1
      = (Ok tt, s2) /\
    do_transfer_bulk cfg (account e) recipients (finalize_payouts e amounts).2 s2
      = (Ok tt, s3) /\
    s' = set_Events (Events s3 ++ [RawEvent.BulkPayout id])
           (set_Escrows (<[id := with_status e
                            (payout_status (status e) (free_balance s3 (account e)))]>
                           (Escrows s3)) s3).
Proof.
  unfold bulk_payout, with_transaction_result, bulk_payout_body.
  unfold get_open_escrow, get_escrow, ensure_trusted, get_balance, ensure,
    bind, get, ret, fail, modify, deposit_event.
  destruct (Escrows s !! id) as [e|] eqn:He; [|discriminate].
  destruct (Now s <? end_time e) eqn:Ht; [|discriminate].
  destruct (is_open_status (status e)) eqn:Ho; [|discriminate].
  destruct (is_trusted_handler s id who) eqn:Htr; [|discriminate].
  destruct (0 <? free_balance s (account e)) eqn:Hb; [|discriminate].
  destruct (free_balance s (account e) <? saturating_sum amounts) eqn:Hs; [discriminate|].
  destruct (finalize_payouts e amounts) as [[rf cf] finals] eqn:Hf.
  destruct (transfer (account e) (reputation_oracle e) rf s) as [[[]|?] s1] eqn:T1;
    [|discriminate].
  destruct (transfer (account e) (recording_oracle e) cf s1) as [[[]|?] s2] eqn:T2;
    [|discriminate].
  destruct (do_transfer_bulk cfg (account e) recipients finals s2) as [[[]|?] s3] eqn:T3;
    [|discriminate].
  intros Heq. injection Heq as <-.
  apply Z.ltb_lt in Ht, Hb. apply Z.ltb_ge in Hs.
  exists e, s1, s2, s3. rewrite Hf. simpl.
  repeat split; try assumption; try lia.
Qed.

(* ------------------------------------------------------------------ *)
(** ** Effects of the ledger transfers *)

Lemma transfer_err_state (from to : AccountId) (v : Z) (s s1 : State) (e : Error) :
  transfer from to v s = (Err e, s1) -> s1 = s.
Proof.
  unfold transfer.
  destruct ((v =? 0) || (from =? to)); [congruence|].
  destruct (free_balance s from <? v); [congruence|].
  destruct (U64_MAX <? free_balance s to + v); congruence.
Qed.

(** Every outcome of a transfer only touches [Balances]. *)
Lemma transfer_frame (from to : AccountId) (v : Z) (s : State) :
  snd (transfer from to v s) = set_Balances (Balances (snd (transfer from to v s))) s.
Proof.
  unfold transfer.
  destruct ((v =? 0) || (from =? to)); [destruct s; reflexivity|].
  destruct (free_balance s from <? v); [destruct s; reflexivity|].
  destruct (U64_MAX <? free_balance s to + v); destruct s; reflexivity.
Qed.

Lemma transfer_ok_balance (from to : AccountId) (v : Z) (s s1 : State) (x : AccountId) :
  from <> to -> transfer from to v s = (Ok tt, s1) ->
  free_balance s1 x =
    free_balance s x + (if x =? to then v else 0) - (if x =? from then v else 0).
Proof.
  intros Hne. unfold transfer.
  destruct (v =? 0) eqn:Hv0; simpl.
  - intros Heq; injection Heq as <-. apply Z.eqb_eq in Hv0; subst v.
    destruct (x =? to), (x =? from); lia.
  - rewrite (proj2 (Z.eqb_neq from to) Hne). simpl.
    destruct (free_balance s from <? v); [discriminate|].
    destruct (U64_MAX <? free_balance s to + v); [discriminate|].
    intros Heq; injection Heq as <-.
    unfold free_balance at 1; simpl.
    destruct (Z.eqb_spec x to) as [->|Hxt].
    + rewrite lookup_insert_eq. simpl.
      rewrite (proj2 (Z.eqb_neq to from)) by congruence. lia.
    + rewrite lookup_insert_ne by congruence.
      destruct (Z.eqb_spec x from) as [->|Hxf].
      * rewrite lookup_insert_eq. simpl. lia.
      * rewrite lookup_insert_ne by congruence. unfold free_balance. lia.
Qed.

Lemma transfer_all_cons_ok (from to : AccountId) (v : Z) (l : list (AccountId * Z))
    (s s' : State) :
  transfer_all from ((to, v) :: l) s = (Ok tt, s') ->
  exists s1, transfer from to v s = (Ok tt, s1) /\ transfer_all from l s1 = (Ok tt, s').
Proof.
  simpl. unfold bind.
  destruct (transfer from to v s) as [[[]|?] s1]; [|discriminate].
  intros H. exists s1. split; [reflexivity | exact H].
Qed.

Lemma do_transfer_bulk_ok (cfg : Config) (from : AccountId) (tos : list AccountId)
    (values : list Z) (s s' : State) :
  do_transfer_bulk cfg from tos values s = (Ok tt, s') ->
  transfer_all from (combine tos values) s = (Ok tt, s').
Proof.
  unfold do_transfer_bulk, ensure, bind, ret, fail.
  destruct (length tos <=? BulkAccountsLimit cfg)%nat; [|discriminate].
  destruct (length tos =? length values)%nat; [|discriminate].
  destruct (saturating_sum values <=? BulkBalanceLimit cfg); [|discriminate].
  exact id.
Qed.

(* ------------------------------------------------------------------ *)
(** ** C5: Scenario A *)

Ltac distinct_from H :=
  let Heq := fresh in
  intros Heq; subst;
  repeat match type of H with
         | NoDup (_ :: _) => apply NoDup_cons in H as [? H]
         end;
  set_solver.

(** C5.  On an escrow with 10% / 10% stakes whose custodial account
    holds 100, a successful [bulk_payout] to two recipients [r1], [r2]
    with amounts [[50; 50]] (recipients, oracles and custodial account
    pairwise distinct) credits 40 to each recipient and 10 to each
    oracle, empties the custodial account and sets the status to
    [Paid]. *)
Theorem bulk_payout_scenario_a (cfg : Config) (who : AccountId) (id : EscrowId)
    (r1 r2 : AccountId) (e : EscrowInfo) (s s' : State) :
  Escrows s !! id = Some e ->
  reputation_oracle_stake e = 10 -> recording_oracle_stake e = 10 ->
  free_balance s (account e) = 100 ->
  NoDup [r1; r2; reputation_oracle e; recording_oracle e; account e] ->
  bulk_payout cfg who id [r1; r2] [50; 50] s = (Ok tt, s') ->
  free_balance s' r1 = free_balance s r1 + 40 /\
  free_balance s' r2 = free_balance s r2 + 40 /\
  free_balance s' (reputation_oracle e) = free_balance s (reputation_oracle e) + 10 /\
  free_balance s' (recording_oracle e) = free_balance s (recording_oracle e) + 10 /\
  free_balance s' (account e) = 0 /\
  option_map status (Escrows s' !! id) = Some Paid.
Proof.
  intros He Hp Hq Hbal Hnd Hok.
  destruct (bulk_payout_ok_inv cfg who id [r1; r2] [50; 50] s s' Hok)
    as (e' & s1 & s2 & s3 & He' & _ & Ho & _ & _ & _ & T1 & T2 & T3 & ->).
  rewrite He in He'. injection He' as <-.
  assert (Hf : finalize_payouts e [50; 50] = (10, 10, [40; 40])).
  { unfold finalize_payouts. rewrite Hp, Hq. reflexivity. }
  rewrite Hf in T1, T2, T3. simpl in T1, T2, T3.
  apply do_transfer_bulk_ok in T3. cbn [combine] in T3.
  apply transfer_all_cons_ok in T3 as (s4 & T4 & T5).
  apply transfer_all_cons_ok in T5 as (s5 & T5 & T6).
  simpl in T6. injection T6 as <-.
  assert (D : forall x y, In x [r1; r2; reputation_oracle e; recording_oracle e; account e] ->
                          In y [r1; r2; reputation_oracle e; recording_oracle e; account e] ->
                          x <> y -> (x =? y) = false).
  { intros x y _ _ Hxy. apply Z.eqb_neq, Hxy. }
  assert (Bal : forall x, free_balance s5 x =
    free_balance s x
    + (if x =? reputation_oracle e then 10 else 0)
    + (if x =? recording_oracle e then 10 else 0)
    + (if x =? r1 then 40 else 0) + (if x =? r2 then 40 else 0)
    - (if x =? account e then 100 else 0)).
  { intros x.
    rewrite (transfer_ok_balance (account e) r2 40 s4 s5 x ltac:(distinct_from Hnd) T5),
      (transfer_ok_balance (account e) r1 40 s2 s4 x ltac:(distinct_from Hnd) T4),
      (transfer_ok_balance (account e) (recording_oracle e) 10 s1 s2 x
         ltac:(distinct_from Hnd) T2),
      (transfer_ok_balance (account e) (reputation_oracle e) 10 s s1 x
         ltac:(distinct_from Hnd) T1).
    destruct (x =? account e); lia. }
  assert (Hs5 : forall x, free_balance
    (set_Events (Events s5 ++ [RawEvent.BulkPayout id])
       (set_Escrows (<[id := with_status e (payout_status (status e)
                                              (free_balance s5 (account e)))]>
                       (Escrows s5)) s5)) x = free_balance s5 x) by reflexivity.
  rewrite !Hs5, !Bal, !Z.eqb_refl.
  rewrite (D r1 (reputation_oracle e)), (D r1 (recording_oracle e)), (D r1 r2),
    (D r1 (account e)), (D r2 (reputation_oracle e)), (D r2 (recording_oracle e)),
    (D r2 r1), (D r2 (account e)), (D (reputation_oracle e) (recording_oracle e)),
    (D (reputation_oracle e) r1), (D (reputation_oracle e) r2),
    (D (reputation_oracle e) (account e)), (D (recording_oracle e) (reputation_oracle e)),
    (D (recording_oracle e) r1), (D (recording_oracle e) r2),
    (D (recording_oracle e) (account e)), (D (account e) (reputation_oracle e)),
    (D (account e) (recording_oracle e)), (D (account e) r1), (D (account e) r2);
    try (simpl; tauto); try distinct_from Hnd.
  repeat split; try lia.
  simpl. rewrite lookup_insert_eq. simpl.
  rewrite Hbal. simpl.
  destruct (status e); try discriminate; reflexivity.
Qed.

Lemma scenario_funded_escrow : Escrows scenario_funded !! 0 = Some scenario_escrow.
Proof. vm_compute. reflexivity. Qed.

(** Scenario A in the mock runtime: escrow 0 with oracles 3 and 4,
    funded with 100 by account 1, paid out to accounts 5 and 6. *)
Lemma bulk_payout_scenario_a_witness :
  let s' := snd (bulk_payout mock_cfg 1 0 [5; 6] [50; 50] scenario_funded) in
  free_balance s' 5 = free_balance scenario_funded 5 + 40 /\
  free_balance s' 6 = free_balance scenario_funded 6 + 40 /\
  free_balance s' 3 = free_balance scenario_funded 3 + 10 /\
  free_balance s' 4 = free_balance scenario_funded 4 + 10 /\
  free_balance s' (account_id_for mock_cfg 0) = 0 /\
  option_map status (Escrows s' !! 0) = Some Paid.
Proof.
  intros s'.
  assert (Hok : bulk_payout mock_cfg 1 0 [5; 6] [50; 50] scenario_funded = (Ok tt, s'))
    by (vm_compute; reflexivity).
  assert (Hnd : NoDup [5; 6; 3; 4; account_id_for mock_cfg 0]).
  { vm_compute.
    repeat (constructor; [rewrite list_elem_of_In; simpl; intuition discriminate|]).
    constructor. }
  exact (bulk_payout_scenario_a mock_cfg 1 0 5 6 scenario_escrow scenario_funded s'
           scenario_funded_escrow eq_refl eq_refl ltac:(vm_compute; reflexivity) Hnd Hok).
Defined.

(* ------------------------------------------------------------------ *)
(** ** C6: adding an already trusted handler *)

Lemma fold_insert_trusted_id (id : EscrowId) (handlers : list AccountId)
    (m : gmap (EscrowId * AccountId) bool) :
  Forall (fun h => m !! (id, h) = Some true) handlers ->
  fold_left (fun m trust => <[(id, trust) := true]> m) handlers m = m.
Proof.
  induction 1 as [|h hs Hh _ IH]; simpl; [reflexivity|].
  rewrite (insert_id m (id, h) true Hh). exact IH.
Qed.

(** C6 (corrected).  When the caller is trusted and every handler passed
    is already trusted for [id], [add_trusted_handlers] leaves the set of
    trusted handlers unchanged; but it still raises the stored
    [HandlersCount] by [len(handlers)] (saturating [u32] addition), and it
    fails with [TooManyHandlers], changing nothing, when that count would
    exceed [HandlersLimit]. *)
Theorem add_trusted_handlers_already_trusted (cfg : Config) (who : AccountId)
    (id : EscrowId) (handlers : list AccountId) (s : State) :
  is_trusted_handler s id who = true ->
  Forall (fun h => TrustedHandlers s !! (id, h) = Some true) handlers ->
  let new_count := sat_add_max U32_MAX (handlers_count s id)
                     (wrap 32 (Z.of_nat (length handlers))) in
  add_trusted_handlers cfg who id handlers s =
    if new_count <=? HandlersLimit cfg
    then (Ok tt, set_HandlersCount (<[id := new_count]> (HandlersCount s)) s)
    else (Err TooManyHandlers, s).
Proof.
  intros Htr Hall new_count.
  unfold add_trusted_handlers, ensure_trusted, do_add_trusted_handlers,
    ensure, bind, get, ret, fail, modify.
  rewrite Htr. fold new_count.
  destruct (new_count <=? HandlersLimit cfg); [|reflexivity].
  rewrite (fold_insert_trusted_id id handlers (TrustedHandlers s) Hall).
  destruct s; reflexivity.
Qed.

Lemma add_trusted_handlers_already_trusted_witness :
  is_trusted_handler scenario_created 0 1 = true /\
  Forall (fun h => TrustedHandlers scenario_created !! (0, h) = Some true) [3; 1] /\
  add_trusted_handlers mock_cfg 1 0 [3; 1] scenario_created =
    (Ok tt, set_HandlersCount (<[0 := 5]> (HandlersCount scenario_created)) scenario_created).
Proof.
  assert (Htr : is_trusted_handler scenario_created 0 1 = true) by (vm_compute; reflexivity).
  assert (Hall : Forall (fun h => TrustedHandlers scenario_created !! (0, h) = Some true) [3; 1])
    by (repeat constructor; vm_compute; reflexivity).
  split; [exact Htr|]. split; [exact Hall|].
  exact (add_trusted_handlers_already_trusted mock_cfg 1 0 [3; 1] scenario_created Htr Hall).
Defined.

(** C6 counterexample: the creator (account 1, already trusted) adds
    itself to escrow 0; the call succeeds and the stored count goes from
    3 to 4. *)
Lemma add_trusted_handlers_count_changes :
  is_trusted_handler scenario_created 0 1 = true /\
  handlers_count scenario_created 0 = 3 /\
  fst (add_trusted_handlers mock_cfg 1 0 [1] scenario_created) = Ok tt /\
  handlers_count (snd (add_trusted_handlers mock_cfg 1 0 [1] scenario_created)) 0 = 4.
Proof. vm_compute. repeat split; reflexivity. Qed.

(* ------------------------------------------------------------------ *)
(** ** C7: custodial accounts *)

(** C7 (code bug).  In the mock runtime, where [AccountId = u64],
    [into_sub_account] keeps only the first 8 bytes [b"modlescr"] of the
    encoding: escrows 0 and 1 get the same custodial account. *)
Theorem account_id_for_mock_collides :
  account_id_for mock_cfg 0 = account_id_for mock_cfg 1 /\
  account_id_for mock_cfg 0 = le_decode [109; 111; 100; 108; 101; 115; 99; 114].
Proof. split; vm_compute; reflexivity. Qed.

(* ------------------------------------------------------------------ *)
(** ** C9: [create] with oversized strings *)

(** C9.  A [create] call whose [manifest_url] or [manifest_hash] is longer
    than [StringLimit] fails with [StringSize] and leaves the state as it
    was: no escrow stored, no trusted handler registered, [Counter]
    unchanged. *)
Theorem create_string_size (cfg : Config) (who : AccountId)
    (manifest_url manifest_hash : list Byte.byte) (factory_id : FactoryId)
    (reputation_oracle recording_oracle : AccountId)
    (reputation_oracle_stake recording_oracle_stake : Percent) (s : State) :
  (StringLimit cfg < length manifest_url \/ StringLimit cfg < length manifest_hash)%nat ->
  create cfg who manifest_url manifest_hash factory_id reputation_oracle recording_oracle
    reputation_oracle_stake recording_oracle_stake s = (Err StringSize, s).
Proof.
  intros Hlen. unfold create, ensure, bind, ret, fail.
  destruct (length manifest_url <=? StringLimit cfg)%nat eqn:Hu.
  - apply Nat.leb_le in Hu.
    destruct (length manifest_hash <=? StringLimit cfg)%nat eqn:Hh; [|reflexivity].
    apply Nat.leb_le in Hh. lia.
  - reflexivity.
Qed.

Lemma create_string_size_witness :
  (StringLimit mock_cfg < length (repeat Byte.x18 11) \/
   StringLimit mock_cfg < length dev_hash)%nat /\
  create mock_cfg 1 (repeat Byte.x18 11) dev_hash 0 3 4 10 10 scenario_created
    = (Err StringSize, scenario_created).
Proof.
  assert (H : (StringLimit mock_cfg < length (repeat Byte.x18 11) \/
               StringLimit mock_cfg < length dev_hash)%nat) by (left; simpl; lia).
  split; [exact H|].
  exact (create_string_size mock_cfg 1 (repeat Byte.x18 11) dev_hash 0 3 4 10 10
           scenario_created H).
Defined.

(** With a 32-byte [AccountId] (as [AccountId32]) the whole encoding is
    kept and the derivation is injective on [u128] ids. *)
Lemma le_bytes_S (n : nat) (x : Z) :
  le_bytes (S n) x = Z.land x 255 :: le_bytes n (Z.shiftr x 8).
Proof.
  unfold le_bytes. cbn [seq map]. rewrite Z.mul_0_r, Z.shiftr_0_r. f_equal.
  rewrite <- seq_shift, map_map. apply map_ext. intros i.
  rewrite Z.shiftr_shiftr by lia. f_equal. f_equal. lia.
Qed.

Lemma mod_mul_split (x a b : Z) :
  0 < a -> 0 < b -> x mod (a * b) = x mod a + a * ((x / a) mod b).
Proof.
  intros Ha Hb.
  rewrite !Z.mod_eq by lia. rewrite <- Z.div_div by lia. ring.
Qed.

Lemma le_decode_bytes (n : nat) (x : Z) :
  0 <= x -> le_decode (le_bytes n x) = x mod 2 ^ (8 * Z.of_nat n).
Proof.
  revert x. induction n as [|n IH]; intros x Hx.
  - change (2 ^ (8 * Z.of_nat 0)) with 1. rewrite Z.mod_1_r. reflexivity.
  - rewrite le_bytes_S. cbn [le_decode fold_right]. fold (le_decode (le_bytes n (Z.shiftr x 8))).
    rewrite IH by (apply Z.shiftr_nonneg; lia).
    change 255 with (Z.ones 8). rewrite Z.land_ones, Z.shiftr_div_pow2 by lia.
    replace (8 * Z.of_nat (S n)) with (8 + 8 * Z.of_nat n) by lia.
    rewrite Z.pow_add_r by lia.
    rewrite mod_mul_split by (try apply Z.pow_pos_nonneg; lia). reflexivity.
Qed.

Lemma le_decode_app (l1 l2 : list Z) :
  le_decode (l1 ++ l2) = le_decode l1 + 256 ^ Z.of_nat (length l1) * le_decode l2.
Proof.
  induction l1 as [|b l1 IH]; simpl.
  - lia.
  - fold (le_decode (l1 ++ l2)) (le_decode l1). rewrite IH.
    rewrite Nat2Z.inj_succ, Z.pow_succ_r by lia. ring.
Qed.

Lemma into_sub_account_32 (id : Z) :
  0 <= id ->
  into_sub_account 32 MODULE_ID id = le_decode (TYPE_ID ++ MODULE_ID) + 2 ^ 96 * (id mod 2 ^ 128).
Proof.
  intros Hid. unfold into_sub_account. cbv zeta.
  rewrite (app_assoc TYPE_ID MODULE_ID), firstn_app.
  assert (Hlen : length ((TYPE_ID ++ MODULE_ID) ++ le_bytes 16 id) = 28%nat).
  { rewrite length_app. unfold le_bytes. rewrite length_map, length_seq. reflexivity. }
  rewrite Hlen, firstn_all2 by lia. cbn [Nat.sub repeat firstn].
  rewrite !le_decode_app, le_decode_bytes by exact Hid.
  change (le_decode [0; 0; 0; 0]) with 0.
  change (Z.of_nat (length (TYPE_ID ++ MODULE_ID))) with 12.
  rewrite length_app. unfold le_bytes at 1. rewrite length_map, length_seq.
  change (Z.of_nat (length (TYPE_ID ++ MODULE_ID) + 16)) with 28.
  change (8 * Z.of_nat 16) with 128. change (256 ^ 12) with (2 ^ 96). lia.
Qed.

Lemma account_id_for_injective_32 (cfg : Config) (i j : EscrowId) :
  AccountBytes cfg = 32%nat -> 0 <= i <= U128_MAX -> 0 <= j <= U128_MAX ->
  account_id_for cfg i = account_id_for cfg j -> i = j.
Proof.
  unfold account_id_for, U128_MAX. intros Hw Hi Hj. rewrite Hw.
  rewrite !into_sub_account_32 by lia.
  rewrite !Z.mod_small by lia. lia.
Qed.

(* ------------------------------------------------------------------ *)
(** ** C8: [abort] *)

Lemma abort_ok_inv (who : AccountId) (id : EscrowId) (s s' : State) :
  abort who id s = (Ok tt, s') ->
  exists e s1,
    Escrows s !! id = Some e /\ is_trusted_handler s id who = true /\
    (match status e with Complete | Paid => false | _ => true end) = true /\
    (if 0 <? free_balance s (account e)
     then transfer (account e) (canceller e) (free_balance s (account e)) s = (Ok tt, s1)
     else s1 = s) /\
    Escrows s' = delete id (Escrows s1) /\
    FinalResults s' = delete id (FinalResults s1) /\
    TrustedHandlers s' = remove_prefix id (TrustedHandlers s1) /\
    HandlersCount s' = delete id (HandlersCount s1) /\
    Balances s' = Balances s1.
Proof.
  unfold abort, get_escrow, ensure_trusted, get_balance, ensure,
    bind, get, ret, fail, modify. cbv beta iota.
  destruct (Escrows s !! id) as [e|] eqn:He; [|discriminate].
  destruct (is_trusted_handler s id who) eqn:Htr; [|discriminate].
  destruct (status e) eqn:Hs; simpl; try discriminate.
  all: destruct (0 <? free_balance s (account e)) eqn:Hb.
  all: try (destruct (transfer (account e) (canceller e) (free_balance s (account e)) s)
        as [r s1] eqn:T; destruct r as [u|err]; [|discriminate]; destruct u).
  all: destruct (binary_search _ id) as [index|?]; [|discriminate].
  all: intros Heq; injection Heq as <-.
  all: first [exists e, s1 | exists e, s]; rewrite Hs, Hb; repeat split; auto.
Qed.

Lemma remove_prefix_lookup (id : EscrowId) (m : gmap (EscrowId * AccountId) bool)
    (a : AccountId) :
  remove_prefix id m !! (id, a) = None.
Proof.
  unfold remove_prefix. rewrite map_lookup_filter_None. right.
  intros v _. simpl. congruence.
Qed.

(** C8.  When [abort] succeeds on the escrow [e] stored at [id]: if the
    custodial balance [b] is positive, the canceller gains [b] and the
    custodial account is emptied (when the two accounts differ); no other
    balance changes; the escrow record, every trust entry of [id], the
    handler count and the stored result pointer are gone. *)
Theorem abort_ok_effect (who : AccountId) (id : EscrowId) (e : EscrowInfo) (s s' : State) :
  Escrows s !! id = Some e ->
  abort who id s = (Ok tt, s') ->
  let b := free_balance s (account e) in
  (0 < b -> canceller e <> account e ->
     free_balance s' (canceller e) = free_balance s (canceller e) + b /\
     free_balance s' (account e) = 0) /\
  (forall x, x <> canceller e -> x <> account e -> free_balance s' x = free_balance s x) /\
  Escrows s' !! id = None /\
  (forall a, TrustedHandlers s' !! (id, a) = None) /\
  HandlersCount s' !! id = None /\
  FinalResults s' !! id = None.
Proof.
  intros He Hok b.
  destruct (abort_ok_inv who id s s' Hok)
    as (e' & s1 & He' & _ & _ & Htr & HE & HF & HT & HH & HB).
  rewrite He in He'. injection He' as <-.
  assert (Hfb : forall x, free_balance s' x = free_balance s1 x)
    by (intros x; unfold free_balance; rewrite HB; reflexivity).
  split; [|split; [|split; [|split; [|split]]]].
  - intros Hpos Hne. fold b in Htr. apply Z.ltb_lt in Hpos. rewrite Hpos in Htr.
    apply Z.ltb_lt in Hpos.
    rewrite !Hfb, !(transfer_ok_balance _ _ _ _ _ _ (not_eq_sym Hne) Htr).
    rewrite !Z.eqb_refl, (proj2 (Z.eqb_neq _ _) Hne), (proj2 (Z.eqb_neq _ _) (not_eq_sym Hne)).
    fold b. lia.
  - intros x Hx1 Hx2. rewrite Hfb. fold b in Htr.
    destruct (0 <? b) eqn:Hpos; [|subst s1; reflexivity].
    destruct (Z.eq_dec (canceller e) (account e)) as [Heq|Hne].
    + unfold transfer in Htr. rewrite Heq, Z.eqb_refl, orb_true_r in Htr.
      injection Htr as <-. reflexivity.
    + rewrite (transfer_ok_balance _ _ _ _ _ _ (not_eq_sym Hne) Htr).
      rewrite (proj2 (Z.eqb_neq _ _) Hx1), (proj2 (Z.eqb_neq _ _) Hx2). lia.
  - rewrite HE. apply lookup_delete_eq.
  - intros a. rewrite HT. apply remove_prefix_lookup.
  - rewrite HH. apply lookup_delete_eq.
  - rewrite HF. apply lookup_delete_eq.
Qed.

Lemma abort_ok_effect_witness :
  let s' := snd (abort 1 0 scenario_funded) in
  Escrows scenario_funded !! 0 = Some scenario_escrow /\
  abort 1 0 scenario_funded = (Ok tt, s') /\
  (let b := free_balance scenario_funded (account scenario_escrow) in
  (0 < b -> canceller scenario_escrow <> account scenario_escrow ->
     free_balance s' (canceller scenario_escrow)
       = free_balance scenario_funded (canceller scenario_escrow) + b /\
     free_balance s' (account scenario_escrow) = 0) /\
  (forall x, x <> canceller scenario_escrow -> x <> account scenario_escrow ->
     free_balance s' x = free_balance scenario_funded x) /\
  Escrows s' !! 0 = None /\
  (forall a, TrustedHandlers s' !! (0, a) = None) /\
  HandlersCount s' !! 0 = None /\
  FinalResults s' !! 0 = None).
Proof.
  intros s'.
  assert (Hok : abort 1 0 scenario_funded = (Ok tt, s')) by (vm_compute; reflexivity).
  split; [exact scenario_funded_escrow|]. split; [exact Hok|].
  exact (abort_ok_effect 1 0 scenario_escrow scenario_funded s' scenario_funded_escrow Hok).
Defined.

(* ------------------------------------------------------------------ *)
(** ** Effect of one call on the escrow records and the trust registry *)

Ltac split_ifs :=
  repeat match goal with
         | |- context [if ?b then _ else _] => destruct b eqn:?; simpl
         end.

Lemma transfer_fields (from to : AccountId) (v : Z) (s s1 : State) (r : result unit) :
  transfer from to v s = (r, s1) ->
  Escrows s1 = Escrows s /\ TrustedHandlers s1 = TrustedHandlers s /\ Counter s1 = Counter s.
Proof.
  intros T. pose proof (transfer_frame from to v s) as H. rewrite T in H.
  simpl in H. rewrite H. repeat split.
Qed.

Lemma transfer_all_fields (from : AccountId) (l : list (AccountId * Z)) (s s1 : State)
    (r : result unit) :
  transfer_all from l s = (r, s1) ->
  Escrows s1 = Escrows s /\ TrustedHandlers s1 = TrustedHandlers s /\ Counter s1 = Counter s.
Proof.
  revert s. induction l as [|[to v] l IH]; intros s; simpl.
  - unfold ret. intros Heq; injection Heq as _ <-. repeat split.
  - unfold bind. destruct (transfer from to v s) as [[u|err] s2] eqn:T.
    + intros H. destruct (IH s2 H) as (? & ? & ?).
      destruct (transfer_fields _ _ _ _ _ _ T) as (? & ? & ?). repeat split; congruence.
    + intros Heq; injection Heq as _ <-. exact (transfer_fields _ _ _ _ _ _ T).
Qed.

Lemma do_transfer_bulk_fields (cfg : Config) (from : AccountId) (tos : list AccountId)
    (values : list Z) (s s1 : State) (r : result unit) :
  do_transfer_bulk cfg from tos values s = (r, s1) ->
  Escrows s1 = Escrows s /\ TrustedHandlers s1 = TrustedHandlers s /\ Counter s1 = Counter s.
Proof.
  unfold do_transfer_bulk, ensure, bind, ret, fail. cbv beta iota.
  split_ifs; try (intros Heq; injection Heq as _ <-; repeat split).
  apply transfer_all_fields.
Qed.

Lemma forward_refl (st : EscrowStatus) : status_forward st st = true.
Proof. destruct st; reflexivity. Qed.

Lemma forward_trans (a b c : EscrowStatus) :
  status_forward a b = true -> status_forward b c = true -> status_forward a c = true.
Proof. destruct a, b, c; simpl; congruence. Qed.

Lemma payout_status_forward (st : EscrowStatus) (b : Z) :
  status_forward st (payout_status st b) = true.
Proof. unfold payout_status. destruct st, (b =? 0); reflexivity. Qed.

Ltac frame_done := apply eff_frame; reflexivity.

Lemma create_effect (cfg : Config) who u h f rep rec ps qs (s : State) :
  escrow_effect s (snd (create cfg who u h f rep rec ps qs s)).
Proof.
  unfold create, ensure, bind, get, modify, ret, fail, do_add_trusted_handlers,
    deposit_event. simpl.
  split_ifs; try frame_done.
  eapply (eff_create _ _ _ [rec; rep; who]); cycle 1; try (simpl; reflexivity).
Qed.

Lemma create_factory_effect (who : AccountId) (s : State) :
  escrow_effect s (snd (create_factory who s)).
Proof. frame_done. Qed.

Lemma add_trusted_handlers_effect (cfg : Config) who id hs (s : State) :
  escrow_effect s (snd (add_trusted_handlers cfg who id hs s)).
Proof.
  unfold add_trusted_handlers, ensure_trusted, ensure, bind, get, modify, ret, fail,
    do_add_trusted_handlers. simpl.
  destruct (is_trusted_handler s id who) eqn:Htr; simpl; [|frame_done].
  split_ifs; [|frame_done].
  eapply (eff_trust _ _ id who hs); simpl; auto.
Qed.

Lemma note_intermediate_results_effect (cfg : Config) who id u h (s : State) :
  escrow_effect s (snd (note_intermediate_results cfg who id u h s)).
Proof.
  unfold note_intermediate_results, get_open_escrow, get_escrow, ensure_trusted, ensure,
    bind, get, modify, ret, fail, deposit_event. simpl.
  split_ifs; try frame_done.
  destruct (Escrows s !! id); simpl; split_ifs; frame_done.
Qed.

Lemma store_final_results_effect (cfg : Config) who id u h (s : State) :
  escrow_effect s (snd (store_final_results cfg who id u h s)).
Proof.
  unfold store_final_results, get_open_escrow, get_escrow, ensure_trusted, ensure,
    bind, get, modify, ret, fail. simpl.
  split_ifs; try frame_done.
  destruct (Escrows s !! id); simpl; split_ifs; frame_done.
Qed.

Lemma transfer_effect (from to : AccountId) (v : Z) (s : State) :
  escrow_effect s (snd (transfer from to v s)).
Proof.
  destruct (transfer from to v s) as [r s1] eqn:T; simpl.
  destruct (transfer_fields _ _ _ _ _ _ T) as (? & ? & ?). apply eff_frame; auto.
Qed.

Lemma set_timestamp_effect (t : Moment) (s : State) :
  escrow_effect s (snd (set_timestamp t s)).
Proof.
  unfold set_timestamp, ensure, bind, get, modify, ret, fail. simpl.
  split_ifs; frame_done.
Qed.

Lemma abort_effect (who : AccountId) (id : EscrowId) (s : State) :
  escrow_effect s (snd (abort who id s)).
Proof.
  unfold abort, get_escrow, ensure_trusted, get_balance, ensure,
    bind, get, ret, fail, modify. cbv beta iota.
  destruct (Escrows s !! id) as [e|]; [|frame_done].
  destruct (is_trusted_handler s id who); [|frame_done].
  destruct (negb _); [|frame_done].
  destruct (0 <? free_balance s (account e)).
  - destruct (transfer (account e) (canceller e) (free_balance s (account e)) s)
      as [[u|err] s1] eqn:T.
    + destruct (transfer_fields _ _ _ _ _ _ T) as (HE & HT & HC).
      destruct (binary_search _ id); simpl;
        apply (eff_remove _ _ id); simpl; congruence.
    + destruct (transfer_fields _ _ _ _ _ _ T) as (HE & HT & HC).
      apply eff_frame; simpl; congruence.
  - destruct (binary_search _ id); simpl; apply (eff_remove _ _ id); reflexivity.
Qed.

Lemma cancel_effect (who : AccountId) (id : EscrowId) (s : State) :
  escrow_effect s (snd (cancel who id s)).
Proof.
  unfold cancel, get_escrow, ensure_trusted, get_balance, ensure,
    bind, get, ret, fail, modify. cbv beta iota.
  destruct (Escrows s !! id) as [e|] eqn:He; [|frame_done].
  destruct (is_trusted_handler s id who); [|frame_done].
  destruct (is_open_status (status e)) eqn:Hop; [|frame_done].
  destruct (0 <? free_balance s (account e)); [|frame_done].
  destruct (transfer (account e) (canceller e) (free_balance s (account e)) s)
    as [[u|err] s1] eqn:T;
    destruct (transfer_fields _ _ _ _ _ _ T) as (HE & HT & HC).
  - apply (eff_status _ _ id e Cancelled); simpl; try congruence.
    destruct (status e); simpl in *; congruence.
  - simpl. apply eff_frame; congruence.
Qed.

Lemma complete_effect (who : AccountId) (id : EscrowId) (s : State) :
  escrow_effect s (snd (complete who id s)).
Proof.
  unfold complete, get_escrow, ensure_trusted, ensure,
    bind, get, ret, fail, modify. cbv beta iota.
  destruct (Escrows s !! id) as [e|] eqn:He; [|frame_done].
  destruct (is_trusted_handler s id who); [|frame_done].
  destruct (Now s <? end_time e); [|frame_done].
  destruct (EscrowStatus_eqb (status e) Paid) eqn:Hpaid; [|frame_done].
  apply (eff_status _ _ id e Complete); simpl; try reflexivity; [exact He|].
  destruct (status e); simpl in *; congruence.
Qed.

Lemma bulk_payout_effect (cfg : Config) who id rs ams (s : State) :
  escrow_effect s (snd (bulk_payout cfg who id rs ams s)).
Proof.
  destruct (bulk_payout cfg who id rs ams s) as [[[]|err] s'] eqn:B; simpl.
  - destruct (bulk_payout_ok_inv _ _ _ _ _ _ _ B)
      as (e & s1 & s2 & s3 & He & _ & _ & _ & _ & _ & T1 & T2 & T3 & ->).
    destruct (transfer_fields _ _ _ _ _ _ T1) as (E1 & R1 & C1).
    destruct (transfer_fields _ _ _ _ _ _ T2) as (E2 & R2 & C2).
    destruct (do_transfer_bulk_fields _ _ _ _ _ _ _ T3) as (E3 & R3 & C3).
    apply (eff_status _ _ id e (payout_status (status e) (free_balance s3 (account e))));
      simpl; try congruence.
    apply payout_status_forward.
  - unfold bulk_payout, with_transaction_result in B.
    destruct (bulk_payout_body cfg who id rs ams s) as [[a|e0] s0];
      [discriminate | injection B as _ <-; frame_done].
Qed.

Lemma exec_effect (cfg : Config) (c : Call) (s : State) : escrow_effect s (exec cfg c s).
Proof.
  destruct c; unfold exec, dispatch.
  - apply create_factory_effect.
  - apply create_effect.
  - apply add_trusted_handlers_effect.
  - apply abort_effect.
  - apply cancel_effect.
  - apply complete_effect.
  - apply note_intermediate_results_effect.
  - apply store_final_results_effect.
  - apply bulk_payout_effect.
  - apply transfer_effect.
  - apply set_timestamp_effect.
Qed.

Lemma trust_all_lookup_ne (id : EscrowId) (hs : list AccountId)
    (m : gmap (EscrowId * AccountId) bool) (k : EscrowId * AccountId) :
  k.1 <> id -> trust_all id hs m !! k = m !! k.
Proof.
  unfold trust_all. revert m. induction hs as [|h hs IH]; intros m Hk; simpl; [reflexivity|].
  rewrite IH by exact Hk. apply lookup_insert_ne. intros <-. simpl in Hk. congruence.
Qed.

Lemma remove_prefix_lookup_ne (id : EscrowId) (m : gmap (EscrowId * AccountId) bool)
    (k : EscrowId * AccountId) :
  k.1 <> id -> remove_prefix id m !! k = m !! k.
Proof.
  intros Hk. unfold remove_prefix. destruct (m !! k) eqn:Hm.
  - apply map_lookup_filter_Some. split; [exact Hm | exact Hk].
  - apply map_lookup_filter_None. left. exact Hm.
Qed.

Lemma trust_inv_step (s s' : State) : trust_inv s -> escrow_effect s s' -> trust_inv s'.
Proof.
  unfold trust_inv, is_trusted_handler. intros Hinv Heff id a Ha.
  destruct Heff as [HE HT HC | id0 who hs Hwho HE HT HC | e hs Hst HE HT HC
                   | id0 HE HT HC | id0 e0 st He0 Hf HE HT HC].
  - rewrite HE. rewrite HT in Ha. exact (Hinv id a Ha).
  - rewrite HE. rewrite HT in Ha. destruct (Z.eq_dec id id0) as [->|Hne].
    + exact (Hinv id0 who Hwho).
    + rewrite trust_all_lookup_ne in Ha by exact Hne. exact (Hinv id a Ha).
  - rewrite HE. destruct (Z.eq_dec id (Counter s)) as [->|Hne].
    + rewrite lookup_insert_eq. discriminate.
    + rewrite lookup_insert_ne by congruence.
      rewrite HT, trust_all_lookup_ne in Ha by exact Hne. exact (Hinv id a Ha).
  - rewrite HT in Ha. destruct (Z.eq_dec id id0) as [->|Hne].
    + rewrite remove_prefix_lookup in Ha. discriminate.
    + rewrite remove_prefix_lookup_ne in Ha by exact Hne.
      rewrite HE, lookup_delete_ne by congruence. exact (Hinv id a Ha).
  - rewrite HE. destruct (Z.eq_dec id id0) as [->|Hne].
    + rewrite lookup_insert_eq. discriminate.
    + rewrite lookup_insert_ne by congruence. rewrite HT in Ha. exact (Hinv id a Ha).
Qed.

Lemma trust_inv_reachable (cfg : Config) (n : nat) (s : State) :
  reachable cfg n s -> trust_inv s.
Proof.
  induction 1 as [balances t | n s c _ IH].
  - unfold trust_inv, is_trusted_handler. intros id a. simpl.
    rewrite lookup_empty. discriminate.
  - exact (trust_inv_step s (exec cfg c s) IH (exec_effect cfg c s)).
Qed.

Lemma counter_inv_reachable (cfg : Config) (n : nat) (s : State) :
  reachable cfg n s -> Z.of_nat n <= U128_MAX -> counter_inv n s.
Proof.
  induction 1 as [balances t | n s c _ IH]; intros Hn.
  - unfold counter_inv. simpl. split; [lia|]. intros k Hk. rewrite lookup_empty in Hk.
    congruence.
  - destruct (IH ltac:(lia)) as [HC0 Hk0]. unfold counter_inv.
    destruct (exec_effect cfg c s) as [HE HT HC | id0 who hs Hwho HE HT HC | e hs Hst HE HT HC
                   | id0 HE HT HC | id0 e0 st He0 Hf HE HT HC].
    + rewrite HC, HE. split; [lia | exact Hk0].
    + rewrite HC, HE. split; [lia | exact Hk0].
    + assert (Hw : wrap 128 (Counter s + 1) = Counter s + 1).
      { unfold wrap. apply Z.mod_small. unfold U128_MAX in Hn. lia. }
      rewrite HC, Hw, HE. split; [lia|]. intros k Hk.
      destruct (Z.eq_dec k (Counter s)) as [->|Hne]; [lia|].
      rewrite lookup_insert_ne in Hk by congruence. specialize (Hk0 k Hk). lia.
    + rewrite HC, HE. split; [lia|]. intros k Hk.
      destruct (Z.eq_dec k id0) as [->|Hne].
      * rewrite lookup_delete_eq in Hk. congruence.
      * rewrite lookup_delete_ne in Hk by congruence. exact (Hk0 k Hk).
    + rewrite HC, HE. split; [lia|]. intros k Hk.
      destruct (Z.eq_dec k id0) as [->|Hne].
      * apply Hk0. rewrite He0. discriminate.
      * rewrite lookup_insert_ne in Hk by congruence. exact (Hk0 k Hk).
Qed.

(* ------------------------------------------------------------------ *)
(** ** C3: status monotonicity *)

(** C3.  In a state reached by [n] calls (fewer than [2^128], so that the
    [u128] escrow counter has not wrapped), one more call of any kind
    moves the status of a stored escrow only forward along
    [Pending -> Partial -> Paid -> Complete], [Pending/Partial ->
    Cancelled] (or leaves it), and a record that appears is [Pending]. *)
Theorem status_monotone (cfg : Config) (n : nat) (s : State) (c : Call) (id : EscrowId) :
  reachable cfg n s -> Z.of_nat n <= U128_MAX ->
  (forall e e', Escrows s !! id = Some e -> Escrows (exec cfg c s) !! id = Some e' ->
     status_forward (status e) (status e') = true) /\
  (Escrows s !! id = None -> forall e', Escrows (exec cfg c s) !! id = Some e' ->
     status e' = Pending).
Proof.
  intros Hr Hn. destruct (counter_inv_reachable cfg n s Hr Hn) as [_ Hlt].
  destruct (exec_effect cfg c s) as [HE HT HC | id0 who hs Hwho HE HT HC | e0 hs Hst HE HT HC
                   | id0 HE HT HC | id0 e0 st He0 Hf HE HT HC];
    rewrite HE; split; intros.
  - rewrite H in H0. injection H0 as <-. apply forward_refl.
  - congruence.
  - rewrite H in H0. injection H0 as <-. apply forward_refl.
  - congruence.
  - destruct (Z.eq_dec id (Counter s)) as [->|Hne].
    + assert (Counter s < Counter s) by (apply Hlt; congruence). lia.
    + rewrite lookup_insert_ne in H0 by congruence. rewrite H in H0.
      injection H0 as <-. apply forward_refl.
  - destruct (Z.eq_dec id (Counter s)) as [->|Hne].
    + rewrite lookup_insert_eq in H0. injection H0 as <-. exact Hst.
    + rewrite lookup_insert_ne in H0 by congruence. congruence.
  - destruct (Z.eq_dec id id0) as [->|Hne].
    + rewrite lookup_delete_eq in H0. discriminate.
    + rewrite lookup_delete_ne in H0 by congruence. rewrite H in H0.
      injection H0 as <-. apply forward_refl.
  - destruct (Z.eq_dec id id0) as [->|Hne].
    + rewrite lookup_delete_eq in H0. discriminate.
    + rewrite lookup_delete_ne in H0 by congruence. congruence.
  - destruct (Z.eq_dec id id0) as [->|Hne].
    + rewrite lookup_insert_eq in H0. injection H0 as <-.
      rewrite He0 in H. injection H as <-. exact Hf.
    + rewrite lookup_insert_ne in H0 by congruence. rewrite H in H0.
      injection H0 as <-. apply forward_refl.
  - destruct (Z.eq_dec id id0) as [->|Hne]; [congruence|].
    rewrite lookup_insert_ne in H0 by congruence. congruence.
Qed.

Lemma scenario_created_reachable : reachable mock_cfg 2 scenario_created.
Proof.
  unfold scenario_created, mock_genesis.
  apply reachable_step, reachable_step, reachable_genesis.
Qed.

Lemma status_monotone_witness :
  reachable mock_cfg 2 scenario_created /\ Z.of_nat 2 <= U128_MAX /\
  (forall e e', Escrows scenario_created !! 0 = Some e ->
     Escrows (exec mock_cfg (call_cancel 1 0) scenario_created) !! 0 = Some e' ->
     status_forward (status e) (status e') = true) /\
  (Escrows scenario_created !! 0 = None ->
     forall e', Escrows (exec mock_cfg (call_cancel 1 0) scenario_created) !! 0 = Some e' ->
     status e' = Pending).
Proof.
  assert (Hb : Z.of_nat 2 <= U128_MAX) by (unfold U128_MAX; lia).
  split; [exact scenario_created_reachable|]. split; [exact Hb|].
  exact (status_monotone mock_cfg 2 scenario_created (call_cancel 1 0) 0
           scenario_created_reachable Hb).
Defined.

(* ------------------------------------------------------------------ *)
(** ** C10: trust entries of missing escrows *)

(** C10.  In every reachable state, an id with no stored escrow has no
    trusted handler; so [add_trusted_handlers] on such an id fails with
    [NonTrustedAccount] (and changes nothing), and
    [note_intermediate_results] and [store_final_results], which check the
    strings and then trust before loading the record, fail with
    [StringSize] or [NonTrustedAccount]: never with [MissingEscrow]. *)
Theorem missing_escrow_untrusted (cfg : Config) (n : nat) (s : State) (id : EscrowId)
    (who : AccountId) (hs : list AccountId) (u h : list Byte.byte) :
  reachable cfg n s -> Escrows s !! id = None ->
  (forall a, is_trusted_handler s id a = false) /\
  add_trusted_handlers cfg who id hs s = (Err NonTrustedAccount, s) /\
  (note_intermediate_results cfg who id u h s = (Err StringSize, s) \/
   note_intermediate_results cfg who id u h s = (Err NonTrustedAccount, s)) /\
  (store_final_results cfg who id u h s = (Err StringSize, s) \/
   store_final_results cfg who id u h s = (Err NonTrustedAccount, s)).
Proof.
  intros Hr Hnone.
  assert (Hf : forall a, is_trusted_handler s id a = false).
  { intros a. destruct (is_trusted_handler s id a) eqn:Ha; [|reflexivity].
    exfalso. exact (trust_inv_reachable cfg n s Hr id a Ha Hnone). }
  split; [exact Hf|]. split; [|split].
  - unfold add_trusted_handlers, ensure_trusted, ensure, bind, get, ret, fail. simpl.
    rewrite Hf. reflexivity.
  - unfold note_intermediate_results, ensure_trusted, ensure, bind, get, ret, fail.
    simpl. split_ifs; auto.
    match goal with H : is_trusted_handler _ _ _ = true |- _ => rewrite Hf in H end.
    discriminate.
  - unfold store_final_results, ensure_trusted, ensure, bind, get, ret, fail.
    simpl. split_ifs; auto.
    match goal with H : is_trusted_handler _ _ _ = true |- _ => rewrite Hf in H end.
    discriminate.
Qed.

Lemma missing_escrow_untrusted_witness :
  reachable mock_cfg 2 scenario_created /\ Escrows scenario_created !! 1 = None /\
  (forall a, is_trusted_handler scenario_created 1 a = false) /\
  add_trusted_handlers mock_cfg 1 1 [2] scenario_created
    = (Err NonTrustedAccount, scenario_created) /\
  (note_intermediate_results mock_cfg 1 1 some_url dev_hash scenario_created
     = (Err StringSize, scenario_created) \/
   note_intermediate_results mock_cfg 1 1 some_url dev_hash scenario_created
     = (Err NonTrustedAccount, scenario_created)) /\
  (store_final_results mock_cfg 1 1 some_url dev_hash scenario_created
     = (Err StringSize, scenario_created) \/
   store_final_results mock_cfg 1 1 some_url dev_hash scenario_created
     = (Err NonTrustedAccount, scenario_created)).
Proof.
  assert (Hn : Escrows scenario_created !! 1 = None) by (vm_compute; reflexivity).
  split; [exact scenario_created_reachable|]. split; [exact Hn|].
  exact (missing_escrow_untrusted mock_cfg 2 scenario_created 1 1 [2] some_url dev_hash
           scenario_created_reachable Hn).
Defined.

(* ================================================================== *)
(** * Further properties of the pallet *)

(* ------------------------------------------------------------------ *)
(** ** [create] *)

Lemma trust_all_lookup_eq (id : EscrowId) (hs : list AccountId)
    (m : gmap (EscrowId * AccountId) bool) (a : AccountId) :
  trust_all id hs m !! (id, a) = if bool_decide (a ∈ hs) then Some true else m !! (id, a).
Proof.
  unfold trust_all. revert m. induction hs as [|h hs IH]; intros m; simpl.
  - reflexivity.
  - rewrite IH. destruct (bool_decide (a ∈ hs)) eqn:Hin.
    + apply bool_decide_eq_true in Hin.
      rewrite bool_decide_eq_true_2 by (apply list_elem_of_further; exact Hin). reflexivity.
    + apply bool_decide_eq_false in Hin. destruct (Z.eq_dec a h) as [->|Hne].
      * rewrite lookup_insert_eq, bool_decide_eq_true_2 by apply list_elem_of_here.
        reflexivity.
      * rewrite lookup_insert_ne by congruence.
        rewrite bool_decide_eq_false_2; [reflexivity|].
        rewrite elem_of_cons. intros [?|?]; contradiction.
Qed.

Lemma create_ok_inv (cfg : Config) who u h f rep rec ps qs (s s' : State) :
  create cfg who u h f rep rec ps qs s = (Ok tt, s') ->
  (length u <= StringLimit cfg)%nat /\ (length h <= StringLimit cfg)%nat /\
  (exists l, EscrowFactory s !! f = Some l /\ (length l <= MAX_ESCROWS_PER_FACTORY)%nat) /\
  sat_add_max U8_MAX (deconstruct ps) (deconstruct qs) <= 100 /\
  s' = set_Events (Events s ++ [RawEvent.Pending (Counter s) who u h (account_id_for cfg (Counter s))])
        (set_EscrowFactory
           (<[f := default [] (EscrowFactory s !! f) ++ [Counter s]]> (EscrowFactory s))
           (set_Escrows
              (<[Counter s := {| status := Pending;
                                 end_time := wrap 64 (Now s + StandardDuration cfg);
                                 manifest_url := u; manifest_hash := h;
                                 reputation_oracle := rep; recording_oracle := rec;
                                 reputation_oracle_stake := ps;
                                 recording_oracle_stake := qs;
                                 canceller := who; account := account_id_for cfg (Counter s);
                                 factory := f |}]> (Escrows s))
              (set_TrustedHandlers (trust_all (Counter s) [rec; rep; who] (TrustedHandlers s))
                 (set_HandlersCount (<[Counter s := 3]> (HandlersCount s))
                    (set_Counter (wrap 128 (Counter s + 1)) s))))).
Proof.
  unfold create, ensure, bind, get, modify, ret, fail, do_add_trusted_handlers,
    deposit_event. simpl.
  split_ifs; try discriminate.
  intros Heq; injection Heq as <-.
  repeat match goal with H : _ = true |- _ => first [apply Nat.leb_le in H | apply Z.leb_le in H | apply bool_decide_eq_true in H] end.
  destruct (EscrowFactory s !! f) as [l|] eqn:Hf; [|destruct Heqb1; discriminate].
  repeat split; auto. exists l. split; [reflexivity | exact Heqb2].
Qed.

(* ------------------------------------------------------------------ *)
(** ** Relations kept by monadic code *)

Section Kept.
Context (P : State -> State -> Prop) `{!PreOrder P}.

Lemma kept_ret {A} (a : A) : kept P (ret a).
Proof. intros s. reflexivity. Qed.

Lemma kept_fail {A} (e : Error) : kept P (@fail A e).
Proof. intros s. reflexivity. Qed.

Lemma kept_get : kept P get.
Proof. intros s. reflexivity. Qed.

Lemma kept_ensure (b : bool) (e : Error) : kept P (ensure b e).
Proof. intros s. unfold ensure. destruct b; reflexivity. Qed.

Lemma kept_modify (f : State -> State) : (forall s, P s (f s)) -> kept P (modify f).
Proof. intros Hf s. apply Hf. Qed.

Lemma kept_bind {A B} (m : M A) (k : A -> M B) :
  kept P m -> (forall a, kept P (k a)) -> kept P (bind m k).
Proof.
  intros Hm Hk s. unfold bind. specialize (Hm s).
  destruct (m s) as [[a|e] s1]; simpl in *; [|exact Hm].
  etrans; [exact Hm | apply Hk].
Qed.

Lemma kept_wtr {A} (m : M A) : kept P m -> kept P (with_transaction_result m).
Proof.
  intros Hm s. unfold with_transaction_result. specialize (Hm s).
  destruct (m s) as [[a|e] s1]; simpl in *; [exact Hm | reflexivity].
Qed.

Lemma kept_transfer_all (from : AccountId) (l : list (AccountId * Z)) :
  (forall to v, kept P (transfer from to v)) -> kept P (transfer_all from l).
Proof.
  intros Ht. induction l as [|[to v] l IH]; simpl.
  - apply kept_ret.
  - apply kept_bind; [apply Ht | intros; exact IH].
Qed.

End Kept.

Ltac kept_solve solve_modify :=
  repeat match goal with
  | |- kept _ (bind _ _) => refine (kept_bind _ _ _ _ _); [|intros]
  | |- kept _ (ret _) => refine (kept_ret _ _)
  | |- kept _ (fail _) => refine (kept_fail _ _)
  | |- kept _ get => refine (kept_get _)
  | |- kept _ (ensure _ _) => refine (kept_ensure _ _ _)
  | |- kept _ (modify _) => refine (kept_modify _ _ _); intros; solve_modify
  | |- kept _ (with_transaction_result _) => refine (kept_wtr _ _ _)
  | |- kept _ (transfer_all _ _) => refine (kept_transfer_all _ _ _ _); intros
  | |- kept _ (if ?b then _ else _) => destruct b
  | |- kept _ (match ?o with _ => _ end) => destruct o
  | |- kept _ (let _ := _ in _) => cbv zeta
  end.

Ltac unfold_calls :=
  unfold exec, dispatch, create_factory, create, add_trusted_handlers, abort, cancel,
    complete, note_intermediate_results, store_final_results, bulk_payout,
    bulk_payout_body, set_timestamp, get_open_escrow, get_escrow, ensure_trusted,
    get_balance, do_add_trusted_handlers, deposit_event, do_transfer_bulk.

(* ------------------------------------------------------------------ *)
(** ** Conservation of the total balance *)

Lemma total_of_insert (m : gmap AccountId Z) (i : AccountId) (x : Z) :
  total_of (<[i := x]> m) = total_of m - default 0 (m !! i) + x.
Proof.
  unfold total_of.
  assert (Hcomm : forall (m' : gmap AccountId Z) j1 j2 z1 z2 y, j1 <> j2 ->
            m' !! j1 = Some z1 -> m' !! j2 = Some z2 ->
            (fun (_ : AccountId) v acc => v + acc) j1 z1 ((fun _ v acc => v + acc) j2 z2 y)
            = (fun _ v acc => v + acc) j2 z2 ((fun _ v acc => v + acc) j1 z1 y))
    by (intros; lia).
  rewrite <- insert_delete_eq.
  rewrite (map_fold_insert_L _ _ i x (delete i m)); [|intros; lia | apply lookup_delete_eq].
  destruct (m !! i) as [y|] eqn:Hi; simpl.
  - rewrite (map_fold_delete_L _ 0 i y m (Hcomm m) Hi). lia.
  - rewrite (delete_id m i Hi). lia.
Qed.

#[global] Instance same_total_preorder : PreOrder same_total.
Proof. split; [intros s; reflexivity | intros s1 s2 s3 H1 H2; unfold same_total in *; congruence]. Qed.

Lemma kept_total_transfer (from to : AccountId) (v : Z) : kept same_total (transfer from to v).
Proof.
  intros s. unfold same_total, transfer.
  destruct ((v =? 0) || (from =? to)) eqn:Htriv; [reflexivity|].
  apply orb_false_iff in Htriv as [_ Hne]. apply Z.eqb_neq in Hne.
  destruct (free_balance s from <? v); [reflexivity|].
  destruct (U64_MAX <? free_balance s to + v); [reflexivity|].
  unfold total_balance; simpl.
  rewrite !total_of_insert, lookup_insert_ne by congruence.
  unfold free_balance. lia.
Qed.

Lemma exec_same_total (cfg : Config) (c : Call) : kept same_total (dispatch cfg c).
Proof.
  destruct c; unfold_calls;
    kept_solve ltac:(unfold same_total, total_balance; simpl; reflexivity);
    apply kept_total_transfer.
Qed.

(* ------------------------------------------------------------------ *)
(** ** [create]: success, failure and factory capacity *)

(** X2.  A successful [create] stores a [Pending] escrow under the old
    [Counter], whose end time is [now + StandardDuration] (wrapping
    [u64]) and whose canceller is the caller; it trusts the two oracles
    and the caller for the new id on top of what was trusted before, sets
    its handler count to 3, appends the id to the factory's list, bumps
    [Counter], moves no funds and emits one [Pending] event; no other
    escrow record or trust entry changes. *)
Theorem create_ok_effect (cfg : Config) who u h f rep rec ps qs (s s' : State) :
  create cfg who u h f rep rec ps qs s = (Ok tt, s') ->
  Escrows s' !! Counter s =
    Some {| status := Pending; end_time := wrap 64 (Now s + StandardDuration cfg);
            manifest_url := u; manifest_hash := h;
            reputation_oracle := rep; recording_oracle := rec;
            reputation_oracle_stake := ps; recording_oracle_stake := qs;
            canceller := who; account := account_id_for cfg (Counter s); factory := f |} /\
  (forall k : EscrowId, k <> Counter s -> Escrows s' !! k = Escrows s !! k) /\
  (forall a, is_trusted_handler s' (Counter s) a =
             bool_decide (a ∈ [rec; rep; who]) || is_trusted_handler s (Counter s) a) /\
  (forall (k : EscrowId) a, k <> Counter s -> is_trusted_handler s' k a = is_trusted_handler s k a) /\
  handlers_count s' (Counter s) = 3 /\
  Counter s' = wrap 128 (Counter s + 1) /\
  (exists l, EscrowFactory s !! f = Some l /\ EscrowFactory s' !! f = Some (l ++ [Counter s])) /\
  Balances s' = Balances s /\
  Events s' = Events s ++ [RawEvent.Pending (Counter s) who u h (account_id_for cfg (Counter s))].
Proof.
  intros H.
  destruct (create_ok_inv cfg who u h f rep rec ps qs s s' H)
    as (_ & _ & (l & Hl & _) & _ & ->).
  unfold is_trusted_handler, handlers_count.
  cbn [Escrows TrustedHandlers HandlersCount Counter EscrowFactory Balances Events
       set_Events set_EscrowFactory set_Escrows set_TrustedHandlers set_HandlersCount
       set_Counter].
  repeat split.
  - apply lookup_insert_eq.
  - intros k Hk. apply lookup_insert_ne. congruence.
  - intros a. rewrite trust_all_lookup_eq. destruct (bool_decide _); reflexivity.
  - intros k a Hk. rewrite (trust_all_lookup_ne _ _ _ (k, a)) by exact Hk. reflexivity.
  - rewrite lookup_insert_eq. reflexivity.
  - exists l. rewrite Hl, lookup_insert_eq. split; reflexivity.
Qed.

Lemma create_ok_effect_witness :
  let s := exec mock_cfg (call_create_factory 1) mock_genesis in
  let s' := scenario_created in
  create mock_cfg 1 some_url dev_hash 0 3 4 10 10 s = (Ok tt, s') /\
  Escrows s' !! Counter s =
    Some {| status := Pending; end_time := wrap 64 (Now s + StandardDuration mock_cfg);
            manifest_url := some_url; manifest_hash := dev_hash;
            reputation_oracle := 3; recording_oracle := 4;
            reputation_oracle_stake := 10; recording_oracle_stake := 10;
            canceller := 1; account := account_id_for mock_cfg (Counter s); factory := 0 |} /\
  (forall k : EscrowId, k <> Counter s -> Escrows s' !! k = Escrows s !! k) /\
  (forall a, is_trusted_handler s' (Counter s) a =
             bool_decide (a ∈ [4; 3; 1]) || is_trusted_handler s (Counter s) a) /\
  (forall (k : EscrowId) a, k <> Counter s -> is_trusted_handler s' k a = is_trusted_handler s k a) /\
  handlers_count s' (Counter s) = 3 /\
  Counter s' = wrap 128 (Counter s + 1) /\
  (exists l, EscrowFactory s !! 0 = Some l /\ EscrowFactory s' !! 0 = Some (l ++ [Counter s])) /\
  Balances s' = Balances s /\
  Events s' = Events s ++ [RawEvent.Pending (Counter s) 1 some_url dev_hash
                             (account_id_for mock_cfg (Counter s))].
Proof.
  intros s s'.
  assert (H : create mock_cfg 1 some_url dev_hash 0 3 4 10 10 s = (Ok tt, s'))
    by (vm_compute; reflexivity).
  split; [exact H|].
  exact (create_ok_effect mock_cfg 1 some_url dev_hash 0 3 4 10 10 s s' H).
Defined.

(** Every failing [create] fails before its first write. *)
Lemma create_err_state (cfg : Config) who u h f rep rec ps qs (s s' : State) (err : Error) :
  create cfg who u h f rep rec ps qs s = (Err err, s') -> s' = s.
Proof.
  unfold create, ensure, bind, get, modify, ret, fail, do_add_trusted_handlers,
    deposit_event. simpl.
  split_ifs; try (intros Heq; injection Heq as _ <-; reflexivity); discriminate.
Qed.

(** X3.  A [create] that fails, whatever the error, leaves the whole
    state unchanged. *)
Theorem create_err_unchanged (cfg : Config) who u h f rep rec ps qs (s s' : State)
    (err : Error) :
  create cfg who u h f rep rec ps qs s = (Err err, s') -> s' = s.
Proof. apply create_err_state. Qed.

Lemma create_err_unchanged_witness :
  create mock_cfg 1 some_url dev_hash 7 3 4 10 10 mock_genesis
    = (Err FactoryDoesNotExist, mock_genesis) /\
  mock_genesis = mock_genesis.
Proof.
  assert (H : create mock_cfg 1 some_url dev_hash 7 3 4 10 10 mock_genesis
              = (Err FactoryDoesNotExist, mock_genesis)) by (vm_compute; reflexivity).
  split; [exact H|].
  exact (create_err_unchanged mock_cfg 1 some_url dev_hash 7 3 4 10 10 mock_genesis
           mock_genesis FactoryDoesNotExist H).
Defined.

(** X4.  [create] succeeds exactly when both strings fit [StringLimit],
    the factory exists and holds at most [MAX_ESCROWS_PER_FACTORY] (20)
    escrows, and the stakes add up (saturating [u8] addition) to at most
    100; so a factory holding 20 escrows still accepts a 21st. *)
Theorem create_ok_iff (cfg : Config) who u h f rep rec ps qs (s : State) :
  fst (create cfg who u h f rep rec ps qs s) = Ok tt <->
  (length u <= StringLimit cfg)%nat /\ (length h <= StringLimit cfg)%nat /\
  (exists l, EscrowFactory s !! f = Some l /\ (length l <= MAX_ESCROWS_PER_FACTORY)%nat) /\
  sat_add_max U8_MAX (deconstruct ps) (deconstruct qs) <= 100.
Proof.
  split.
  - destruct (create cfg who u h f rep rec ps qs s) as [[[]|err] s'] eqn:H; [|discriminate].
    intros _. destruct (create_ok_inv cfg who u h f rep rec ps qs s s' H)
      as (Hu & Hh & Hf & Hst & _).
    auto.
  - intros (Hu & Hh & (l & Hf & Hl) & Hst).
    unfold create, ensure, bind, get, modify, ret, fail, do_add_trusted_handlers,
      deposit_event.
    apply Nat.leb_le in Hu, Hh, Hl. apply Z.leb_le in Hst.
    rewrite Hu, Hh, Hf. simpl. rewrite Hl, Hst. reflexivity.
Qed.


Lemma create_ok_iff_witness :
  fst (create mock_cfg 1 some_url dev_hash 0 3 4 10 10 full_factory) = Ok tt /\
  length (default [] (EscrowFactory (snd (create mock_cfg 1 some_url dev_hash 0 3 4 10 10
                                            full_factory)) !! 0)) = 21%nat /\
  ((length some_url <= StringLimit mock_cfg)%nat /\ (length dev_hash <= StringLimit mock_cfg)%nat /\
   (exists l, EscrowFactory full_factory !! 0 = Some l /\
              (length l <= MAX_ESCROWS_PER_FACTORY)%nat) /\
   sat_add_max U8_MAX (deconstruct 10) (deconstruct 10) <= 100).
Proof.
  assert (H : fst (create mock_cfg 1 some_url dev_hash 0 3 4 10 10 full_factory) = Ok tt)
    by (vm_compute; reflexivity).
  split; [exact H|]. split; [vm_compute; reflexivity|].
  exact (proj1 (create_ok_iff mock_cfg 1 some_url dev_hash 0 3 4 10 10 full_factory) H).
Defined.

(* ------------------------------------------------------------------ *)
(** ** Size of the factories *)

Lemma vec_remove_length (i : nat) (l : list Z) : (length (vec_remove i l) <= length l)%nat.
Proof. unfold vec_remove. rewrite length_app, length_firstn, length_skipn. lia. Qed.

Lemma abort_factories (who : AccountId) (id : EscrowId) (s : State) :
  EscrowFactory (snd (abort who id s)) = EscrowFactory s \/
  exists fe, EscrowFactory (snd (abort who id s)) = delete fe (EscrowFactory s) \/
    exists i, EscrowFactory (snd (abort who id s)) =
      <[fe := vec_remove i (default [] (EscrowFactory s !! fe))]> (delete fe (EscrowFactory s)).
Proof.
  unfold abort, get_escrow, ensure_trusted, get_balance, ensure,
    bind, get, ret, fail, modify. cbv beta iota.
  destruct (Escrows s !! id) as [e|]; [|left; reflexivity].
  destruct (is_trusted_handler s id who); [|left; reflexivity].
  destruct (negb _); [|left; reflexivity].
  assert (Fin : forall s1, EscrowFactory s1 = EscrowFactory s ->
    forall x, x = EscrowFactory s1 ->
    forall r, binary_search (default [] (x !! factory e)) id = r ->
    forall y, y = match r with
                  | inl index => <[factory e := vec_remove index (default [] (x !! factory e))]>
                                   (delete (factory e) x)
                  | inr _ => delete (factory e) x end ->
    y = EscrowFactory s \/
    exists fe, y = delete fe (EscrowFactory s) \/
      exists i, y = <[fe := vec_remove i (default [] (EscrowFactory s !! fe))]>
                      (delete fe (EscrowFactory s))).
  { intros s1 HF x -> r _ y ->. right. exists (factory e). rewrite HF.
    destruct r as [i|i]; [right; exists i|left]; reflexivity. }
  destruct (0 <? free_balance s (account e)).
  - destruct (transfer (account e) (canceller e) (free_balance s (account e)) s)
      as [[[]|err] s1] eqn:T.
    + simpl. destruct (binary_search _ id) eqn:B; simpl;
        (eapply Fin; [|reflexivity|exact B|reflexivity]);
        pose proof (transfer_frame (account e) (canceller e) (free_balance s (account e)) s) as F;
        rewrite T in F; simpl in F; rewrite F; reflexivity.
    + left. simpl. rewrite (transfer_err_state _ _ _ _ _ _ T). reflexivity.
  - simpl. destruct (binary_search _ id) eqn:B; simpl;
      (eapply Fin; [reflexivity|reflexivity|exact B|reflexivity]).
Qed.

#[global] Instance same_registry_preorder : PreOrder same_registry.
Proof.
  split; [intros s; repeat split | intros s1 s2 s3 (A1 & B1 & C1) (A2 & B2 & C2)];
    unfold same_registry in *; repeat split; congruence.
Qed.

Lemma kept_registry_transfer (from to : AccountId) (v : Z) :
  kept same_registry (transfer from to v).
Proof.
  intros s. unfold same_registry. rewrite transfer_frame. repeat split.
Qed.

Lemma dispatch_same_registry (cfg : Config) (c : Call) :
  match c with
  | call_create_factory _ | call_create _ _ _ _ _ _ _ _ | call_abort _ _ => False
  | _ => True
  end -> kept same_registry (dispatch cfg c).
Proof.
  intros Hc. destruct c; try contradiction; unfold_calls;
    kept_solve ltac:(unfold same_registry; simpl; repeat split);
    apply kept_registry_transfer.
Qed.

Lemma factory_size_step (cfg : Config) (c : Call) (s : State) :
  factory_size_inv s -> factory_size_inv (exec cfg c s).
Proof.
  intros Hinv. unfold exec. unfold factory_size_inv in *.
  destruct c as [who | who u h f rep rec ps qs | | who id | | | | | | |];
    try (intros f0 l0; match goal with |- context [dispatch cfg ?c s] =>
           pose proof (dispatch_same_registry cfg c I s) as E end;
         unfold same_registry in E; rewrite (proj1 E); apply Hinv).
  - unfold dispatch, create_factory, bind, get, modify, deposit_event. simpl.
    intros f l. simpl. destruct (Z.eq_dec f (FactoryCounter s)) as [->|Hne].
    + rewrite lookup_insert_eq. intros [= <-]. simpl. lia.
    + rewrite lookup_insert_ne by congruence. apply Hinv.
  - simpl. destruct (create cfg who u h f rep rec ps qs s) as [[[]|err] s'] eqn:H; simpl.
    + destruct (create_ok_inv cfg who u h f rep rec ps qs s s' H)
        as (_ & _ & (l & Hf & Hl) & _ & ->).
      intros f0 l0. simpl. destruct (Z.eq_dec f0 f) as [->|Hne].
      * rewrite lookup_insert_eq, Hf. intros [= <-]. simpl. rewrite length_app. simpl. lia.
      * rewrite lookup_insert_ne by congruence. apply Hinv.
    + rewrite (create_err_state _ _ _ _ _ _ _ _ _ _ _ _ H). exact Hinv.
  - change (dispatch cfg (call_abort who id) s) with (abort who id s). intros f0 l0.
    destruct (abort_factories who id s) as [-> | [fe [-> | [i ->]]]].
    + apply Hinv.
    + destruct (Z.eq_dec f0 fe) as [->|Hne].
      * rewrite lookup_delete_eq. discriminate.
      * rewrite lookup_delete_ne by congruence. apply Hinv.
    + destruct (Z.eq_dec f0 fe) as [->|Hne].
      * rewrite lookup_insert_eq. intros [= <-].
        etrans; [apply vec_remove_length|].
        destruct (EscrowFactory s !! fe) as [l|] eqn:Hl; simpl; [exact (Hinv fe l Hl) | lia].
      * rewrite lookup_insert_ne, lookup_delete_ne by congruence. apply Hinv.
Qed.

(** X5.  In every reachable state no factory lists more than 21
    escrows: the bound [MAX_ESCROWS_PER_FACTORY] (20) plus the one that
    [create]'s check [len <= 20] still lets in. *)
Theorem factory_size_reachable (cfg : Config) (n : nat) (s : State) :
  reachable cfg n s ->
  forall (f : FactoryId) l, EscrowFactory s !! f = Some l ->
    (length l <= S MAX_ESCROWS_PER_FACTORY)%nat.
Proof.
  induction 1 as [balances t | n s c _ IH].
  - intros f l. simpl. rewrite lookup_empty. discriminate.
  - exact (factory_size_step cfg c s IH).
Qed.

Lemma factory_size_reachable_witness :
  reachable mock_cfg 2 scenario_created /\
  (forall (f : FactoryId) l, EscrowFactory scenario_created !! f = Some l ->
    (length l <= S MAX_ESCROWS_PER_FACTORY)%nat).
Proof.
  split; [exact scenario_created_reachable|].
  exact (factory_size_reachable mock_cfg 2 scenario_created scenario_created_reachable).
Defined.

(* ------------------------------------------------------------------ *)
(** ** Failing calls *)

Ltac err_unchanged :=
  repeat match goal with
  | |- context [if ?b then _ else _] => destruct b eqn:?; simpl
  | |- context [match ?o with Some _ => _ | None => _ end] => destruct o eqn:?; simpl
  end;
  try (intros Heq; injection Heq as _ <-; reflexivity); try discriminate.

Lemma add_trusted_handlers_err_state (cfg : Config) who id hs (s s' : State) (err : Error) :
  add_trusted_handlers cfg who id hs s = (Err err, s') -> s' = s.
Proof.
  unfold add_trusted_handlers, ensure_trusted, do_add_trusted_handlers, ensure,
    bind, get, modify, ret, fail. simpl. err_unchanged.
Qed.

Lemma cancel_err_state (who : AccountId) (id : EscrowId) (s s' : State) (err : Error) :
  cancel who id s = (Err err, s') -> s' = s.
Proof.
  unfold cancel, get_escrow, ensure_trusted, get_balance, ensure,
    bind, get, ret, fail, modify. cbv beta iota.
  destruct (Escrows s !! id) as [e|]; [|intros Heq; injection Heq as _ <-; reflexivity].
  err_unchanged.
  destruct (transfer (account e) (canceller e) (free_balance s (account e)) s)
    as [[[]|err'] s1] eqn:T; [discriminate|].
  intros Heq; injection Heq as _ <-. exact (transfer_err_state _ _ _ _ _ _ T).
Qed.

Lemma complete_err_state (who : AccountId) (id : EscrowId) (s s' : State) (err : Error) :
  complete who id s = (Err err, s') -> s' = s.
Proof.
  unfold complete, get_escrow, ensure_trusted, ensure, bind, get, ret, fail, modify.
  cbv beta iota. err_unchanged.
Qed.

Lemma note_intermediate_results_err_state (cfg : Config) who id u h (s s' : State)
    (err : Error) :
  note_intermediate_results cfg who id u h s = (Err err, s') -> s' = s.
Proof.
  unfold note_intermediate_results, get_open_escrow, get_escrow, ensure_trusted, ensure,
    bind, get, modify, ret, fail, deposit_event. cbv beta iota. err_unchanged.
Qed.

Lemma store_final_results_err_state (cfg : Config) who id u h (s s' : State)
    (err : Error) :
  store_final_results cfg who id u h s = (Err err, s') -> s' = s.
Proof.
  unfold store_final_results, get_open_escrow, get_escrow, ensure_trusted, ensure,
    bind, get, modify, ret, fail. cbv beta iota. err_unchanged.
Qed.

Lemma bulk_payout_err_state (cfg : Config) who id rs ams (s s' : State) (err : Error) :
  bulk_payout cfg who id rs ams s = (Err err, s') -> s' = s.
Proof.
  unfold bulk_payout, with_transaction_result.
  destruct (bulk_payout_body cfg who id rs ams s) as [[u|e] s1];
    [discriminate | intros Heq; injection Heq as _ <-; reflexivity].
Qed.

(** X6.  Every failing call other than [abort] -- a pallet call, a
    balance transfer or a time step -- leaves the whole state as it was:
    they all check before they write, or roll back ([bulk_payout]). *)
Theorem dispatch_err_unchanged (cfg : Config) (c : Call) (s : State) (err : Error) :
  (forall who id, c <> call_abort who id) ->
  fst (dispatch cfg c s) = Err err -> exec cfg c s = s.
Proof.
  intros Hc. unfold exec.
  destruct (dispatch cfg c s) as [r s'] eqn:D. simpl. intros ->.
  destruct c; simpl in D.
  - unfold create_factory, bind, get, modify, deposit_event in D. discriminate.
  - exact (create_err_state _ _ _ _ _ _ _ _ _ _ _ _ D).
  - exact (add_trusted_handlers_err_state _ _ _ _ _ _ _ D).
  - exfalso. exact (Hc who id eq_refl).
  - exact (cancel_err_state _ _ _ _ _ D).
  - exact (complete_err_state _ _ _ _ _ D).
  - exact (note_intermediate_results_err_state _ _ _ _ _ _ _ _ D).
  - exact (store_final_results_err_state _ _ _ _ _ _ _ _ D).
  - exact (bulk_payout_err_state _ _ _ _ _ _ _ _ D).
  - exact (transfer_err_state _ _ _ _ _ _ D).
  - revert D. unfold set_timestamp, ensure, bind, get, modify, ret, fail. err_unchanged.
Qed.

Lemma dispatch_err_unchanged_witness :
  (forall who id, call_cancel 1 0 <> call_abort who id) /\
  fst (dispatch mock_cfg (call_cancel 1 0) scenario_created) = Err OutOfFunds /\
  exec mock_cfg (call_cancel 1 0) scenario_created = scenario_created.
Proof.
  assert (Hc : forall who id, call_cancel 1 0 <> call_abort who id) by discriminate.
  assert (H : fst (dispatch mock_cfg (call_cancel 1 0) scenario_created) = Err OutOfFunds)
    by (vm_compute; reflexivity).
  split; [exact Hc|]. split; [exact H|].
  exact (dispatch_err_unchanged mock_cfg (call_cancel 1 0) scenario_created OutOfFunds Hc H).
Defined.

(* ------------------------------------------------------------------ *)
(** ** [complete], [cancel], [store_final_results],
       [note_intermediate_results], [add_trusted_handlers] *)

(** X7.  [complete] succeeds exactly when the escrow exists, the caller
    is trusted for it, it has not expired and its status is [Paid]; the
    only thing it then changes is that status, to [Complete]. *)
Theorem complete_ok_iff (who : AccountId) (id : EscrowId) (s s' : State) :
  complete who id s = (Ok tt, s') <->
  exists e, Escrows s !! id = Some e /\ is_trusted_handler s id who = true /\
    Now s < end_time e /\ status e = Paid /\
    s' = set_Escrows (<[id := with_status e Complete]> (Escrows s)) s.
Proof.
  unfold complete, get_escrow, ensure_trusted, ensure, bind, get, ret, fail, modify.
  cbv beta iota. split.
  - destruct (Escrows s !! id) as [e|] eqn:He; [|discriminate].
    destruct (is_trusted_handler s id who) eqn:Ht; [|discriminate].
    destruct (Now s <? end_time e) eqn:Hn; [|discriminate].
    destruct (EscrowStatus_eqb (status e) Paid) eqn:Hp; [|discriminate].
    intros Heq; injection Heq as <-. exists e.
    apply Z.ltb_lt in Hn. repeat split; auto.
    destruct (status e); simpl in Hp; congruence.
  - intros (e & He & Ht & Hn & Hp & ->).
    rewrite He, Ht. apply Z.ltb_lt in Hn. rewrite Hn, Hp. reflexivity.
Qed.



(** X9.  [store_final_results] succeeds exactly when both strings fit
    [StringLimit], the caller is trusted and the escrow exists, has not
    expired and is open; it then stores the pair [(url, hash)] as the
    escrow's final results, replacing any earlier pair, and changes
    nothing else. *)
Theorem store_final_results_ok_iff (cfg : Config) (who : AccountId) (id : EscrowId)
    (u h : list Byte.byte) (s s' : State) :
  store_final_results cfg who id u h s = (Ok tt, s') <->
  (length u <= StringLimit cfg)%nat /\ (length h <= StringLimit cfg)%nat /\
  is_trusted_handler s id who = true /\
  (exists e, Escrows s !! id = Some e /\ Now s < end_time e /\
             is_open_status (status e) = true) /\
  s' = set_FinalResults (<[id := {| results_url := u; results_hash := h |}]> (FinalResults s)) s.
Proof.
  unfold store_final_results, get_open_escrow, get_escrow, ensure_trusted, ensure,
    bind, get, modify, ret, fail. cbv beta iota. split.
  - destruct (length u <=? StringLimit cfg)%nat eqn:Hu; [|discriminate].
    destruct (length h <=? StringLimit cfg)%nat eqn:Hh; [|discriminate].
    destruct (is_trusted_handler s id who) eqn:Ht; [|discriminate].
    destruct (Escrows s !! id) as [e|] eqn:He; [|discriminate].
    destruct (Now s <? end_time e) eqn:Hn; [|discriminate].
    destruct (is_open_status (status e)) eqn:Ho; [|discriminate].
    intros Heq; injection Heq as <-.
    apply Nat.leb_le in Hu, Hh. apply Z.ltb_lt in Hn.
    repeat split; auto. exists e. auto.
  - intros (Hu & Hh & Ht & (e & He & Hn & Ho) & ->).
    apply Nat.leb_le in Hu, Hh. apply Z.ltb_lt in Hn.
    rewrite Hu, Hh, Ht, He, Hn, Ho. reflexivity.
Qed.

(** X10.  [note_intermediate_results] succeeds under the same conditions
    as [store_final_results] (strings within [StringLimit], trusted
    caller, existing open escrow that has not expired) and then only
    appends an [IntermediateResults] event: no storage item changes. *)
Theorem note_intermediate_results_ok_iff (cfg : Config) (who : AccountId) (id : EscrowId)
    (u h : list Byte.byte) (s s' : State) :
  note_intermediate_results cfg who id u h s = (Ok tt, s') <->
  (length u <= StringLimit cfg)%nat /\ (length h <= StringLimit cfg)%nat /\
  is_trusted_handler s id who = true /\
  (exists e, Escrows s !! id = Some e /\ Now s < end_time e /\
             is_open_status (status e) = true) /\
  s' = set_Events (Events s ++ [RawEvent.IntermediateResults id u h]) s.
Proof.
  unfold note_intermediate_results, get_open_escrow, get_escrow, ensure_trusted, ensure,
    bind, get, modify, ret, fail, deposit_event. cbv beta iota. split.
  - destruct (length u <=? StringLimit cfg)%nat eqn:Hu; [|discriminate].
    destruct (length h <=? StringLimit cfg)%nat eqn:Hh; [|discriminate].
    destruct (is_trusted_handler s id who) eqn:Ht; [|discriminate].
    destruct (Escrows s !! id) as [e|] eqn:He; [|discriminate].
    destruct (Now s <? end_time e) eqn:Hn; [|discriminate].
    destruct (is_open_status (status e)) eqn:Ho; [|discriminate].
    intros Heq; injection Heq as <-.
    apply Nat.leb_le in Hu, Hh. apply Z.ltb_lt in Hn.
    repeat split; auto. exists e. auto.
  - intros (Hu & Hh & Ht & (e & He & Hn & Ho) & ->).
    apply Nat.leb_le in Hu, Hh. apply Z.ltb_lt in Hn.
    rewrite Hu, Hh, Ht, He, Hn, Ho. reflexivity.
Qed.

(** X11.  A successful [add_trusted_handlers] (trusted caller, new
    count within [HandlersLimit]) trusts every given handler for [id] on
    top of those trusted before, stores the new count
    [count + len(handlers)] (saturating [u32], length wrapped to [u32]),
    and leaves the other escrows' trust entries and counts, the escrow
    records and the balances as they were. *)
Theorem add_trusted_handlers_ok_effect (cfg : Config) (who : AccountId) (id : EscrowId)
    (hs : list AccountId) (s s' : State) :
  add_trusted_handlers cfg who id hs s = (Ok tt, s') ->
  is_trusted_handler s id who = true /\
  handlers_count s' id =
    sat_add_max U32_MAX (handlers_count s id) (wrap 32 (Z.of_nat (length hs))) /\
  handlers_count s' id <= HandlersLimit cfg /\
  (forall a, is_trusted_handler s' id a = bool_decide (a ∈ hs) || is_trusted_handler s id a) /\
  (forall (k : EscrowId) a, k <> id -> is_trusted_handler s' k a = is_trusted_handler s k a) /\
  (forall k : EscrowId, k <> id -> handlers_count s' k = handlers_count s k) /\
  Escrows s' = Escrows s /\ Balances s' = Balances s.
Proof.
  unfold add_trusted_handlers, ensure_trusted, do_add_trusted_handlers, ensure,
    bind, get, modify, ret, fail. cbv beta iota.
  destruct (is_trusted_handler s id who) eqn:Ht; [|discriminate].
  destruct (_ <=? HandlersLimit cfg) eqn:Hl; [|discriminate].
  intros Heq; injection Heq as <-. apply Z.leb_le in Hl.
  unfold is_trusted_handler, handlers_count.
  cbn [TrustedHandlers HandlersCount Escrows Balances set_TrustedHandlers set_HandlersCount].
  fold (trust_all id hs (TrustedHandlers s)).
  rewrite lookup_insert_eq. simpl.
  repeat split; auto.
  - intros a. rewrite trust_all_lookup_eq. destruct (bool_decide _); reflexivity.
  - intros k a Hk. rewrite (trust_all_lookup_ne _ _ _ (k, a)) by exact Hk. reflexivity.
  - intros k Hk. rewrite lookup_insert_ne by congruence. reflexivity.
Qed.

Lemma add_trusted_handlers_ok_effect_witness :
  let s := scenario_created in
  let s' := snd (add_trusted_handlers mock_cfg 1 0 [7; 8] scenario_created) in
  add_trusted_handlers mock_cfg 1 0 [7; 8] s = (Ok tt, s') /\
  (is_trusted_handler s 0 1 = true /\
  handlers_count s' 0 =
    sat_add_max U32_MAX (handlers_count s 0) (wrap 32 (Z.of_nat (length [7; 8]))) /\
  handlers_count s' 0 <= HandlersLimit mock_cfg /\
  (forall a, is_trusted_handler s' 0 a = bool_decide (a ∈ [7; 8]) || is_trusted_handler s 0 a) /\
  (forall (k : EscrowId) a, k <> 0 -> is_trusted_handler s' k a = is_trusted_handler s k a) /\
  (forall k : EscrowId, k <> 0 -> handlers_count s' k = handlers_count s k) /\
  Escrows s' = Escrows s /\ Balances s' = Balances s).
Proof.
  intros s s'.
  assert (H : add_trusted_handlers mock_cfg 1 0 [7; 8] s = (Ok tt, s'))
    by (vm_compute; reflexivity).
  split; [exact H|].
  exact (add_trusted_handlers_ok_effect mock_cfg 1 0 [7; 8] s s' H).
Defined.

(** X1.  No call changes the total of the free balances: the pallet only
    moves funds between accounts, never mints or burns them. *)
Theorem exec_total_balance (cfg : Config) (c : Call) (s : State) :
  total_balance (exec cfg c s) = total_balance s.
Proof. exact (exec_same_total cfg c s). Qed.

(* ------------------------------------------------------------------ *)
(** ** Balances after a successful [bulk_payout] *)

Lemma finalize_go_length p q rt ct (amounts : list Z) :
  length (finalize_go p q rt ct amounts).2 = length amounts.
Proof.
  revert rt ct. induction amounts as [|a rest IH]; intros rt ct; simpl; [reflexivity|].
  specialize (IH (sat_add rt (mul_floor p a)) (sat_add ct (mul_floor q a))).
  destruct (finalize_go p q _ _ rest) as [[r c] f]. simpl in *. lia.
Qed.

Lemma combine_fst_snd_eq {A B} (l1 : list A) (l2 : list B) :
  length l1 = length l2 -> map fst (combine l1 l2) = l1 /\ map snd (combine l1 l2) = l2.
Proof.
  revert l2. induction l1 as [|a l1 IH]; intros [|b l2] H; simpl in *; try discriminate;
    [split; reflexivity|].
  destruct (IH l2 ltac:(lia)) as [-> ->]. split; reflexivity.
Qed.

Lemma transfer_all_ok_balance (from : AccountId) (l : list (AccountId * Z)) (s s' : State)
    (x : AccountId) :
  from ∉ map fst l -> transfer_all from l s = (Ok tt, s') ->
  free_balance s' x = free_balance s x + sum_Z (map snd (List.filter (fun p => p.1 =? x) l))
                      - (if x =? from then sum_Z (map snd l) else 0).
Proof.
  revert s. induction l as [|[to v] l IH]; intros s Hnin H.
  - simpl in H. injection H as <-. cbn. destruct (x =? from); lia.
  - apply transfer_all_cons_ok in H as (s1 & T & R).
    simpl in Hnin. rewrite not_elem_of_cons in Hnin. destruct Hnin as [Hne Hnin].
    rewrite (IH s1 Hnin R), (transfer_ok_balance from to v s s1 x Hne T).
    cbn [List.filter map fst snd]. rewrite (Z.eqb_sym to x).
    destruct (x =? to) eqn:Hxt; cbn [map snd sum_Z fold_right];
      fold (sum_Z (map snd l)) (sum_Z (map snd (List.filter (fun p => p.1 =? x) l)));
      destruct (x =? from); lia.
Qed.

(** X12.  When [bulk_payout] succeeds on the escrow [e] stored at [id],
    and the custodial account of [e] is neither an oracle nor a
    recipient: with [(rf, cf, finals) = finalize_payouts e amounts],
    there are as many recipients as amounts; the reputation oracle gains
    [rf], the recording oracle [cf], every recipient the sum of the net
    amounts listed for it, the custodial account loses
    [rf + cf + sum finals], and no other balance changes; the new status
    is [Paid] if the custodial account is then empty, [Partial]
    otherwise. *)
Theorem bulk_payout_ok_balances (cfg : Config) (who : AccountId) (id : EscrowId)
    (recipients : list AccountId) (amounts : list Z) (e : EscrowInfo) (s s' : State) :
  Escrows s !! id = Some e ->
  account e ∉ reputation_oracle e :: recording_oracle e :: recipients ->
  bulk_payout cfg who id recipients amounts s = (Ok tt, s') ->
  let '(rf, cf, finals) := finalize_payouts e amounts in
  length recipients = length amounts /\
  (forall x, free_balance s' x =
     free_balance s x
     + (if x =? reputation_oracle e then rf else 0)
     + (if x =? recording_oracle e then cf else 0)
     + sum_Z (map snd (List.filter (fun p => p.1 =? x) (combine recipients finals)))
     - (if x =? account e then rf + cf + sum_Z finals else 0)) /\
  option_map status (Escrows s' !! id) =
    Some (if free_balance s' (account e) =? 0 then Paid else Partial).
Proof.
  intros He Hnin Hok.
  destruct (bulk_payout_ok_inv cfg who id recipients amounts s s' Hok)
    as (e' & s1 & s2 & s3 & He' & _ & Ho & _ & _ & _ & T1 & T2 & T3 & ->).
  rewrite He in He'. injection He' as <-.
  pose proof (finalize_go_length (reputation_oracle_stake e) (recording_oracle_stake e) 0 0
                amounts) as Hlen.
  fold (finalize_payouts e amounts) in Hlen.
  destruct (finalize_payouts e amounts) as [[rf cf] finals]. simpl in T1, T2, T3, Hlen.
  assert (Hlt : length recipients = length finals).
  { revert T3. unfold do_transfer_bulk, ensure, bind, ret, fail.
    destruct (length recipients <=? BulkAccountsLimit cfg)%nat; [|discriminate].
    destruct (length recipients =? length finals)%nat eqn:Hl; [|discriminate].
    intros _. apply Nat.eqb_eq. exact Hl. }
  apply do_transfer_bulk_ok in T3.
  rewrite not_elem_of_cons in Hnin. destruct Hnin as [Hr Hnin].
  rewrite not_elem_of_cons in Hnin. destruct Hnin as [Hc Hnin].
  assert (Hnin' : account e ∉ map fst (combine recipients finals)).
  { rewrite (proj1 (combine_fst_snd_eq _ _ Hlt)). exact Hnin. }
  assert (Hsum : map snd (combine recipients finals) = finals).
  { exact (proj2 (combine_fst_snd_eq _ _ Hlt)). }
  assert (Bal : forall x, free_balance s3 x =
     free_balance s x
     + (if x =? reputation_oracle e then rf else 0)
     + (if x =? recording_oracle e then cf else 0)
     + sum_Z (map snd (List.filter (fun p => p.1 =? x) (combine recipients finals)))
     - (if x =? account e then rf + cf + sum_Z finals else 0)).
  { intros x.
    rewrite (transfer_all_ok_balance _ _ s2 s3 x Hnin' T3), Hsum,
      (transfer_ok_balance _ _ _ s1 s2 x Hc T2),
      (transfer_ok_balance _ _ _ s s1 x Hr T1).
    destruct (x =? account e); lia. }
  split; [lia|]. split; [exact Bal|].
  change (free_balance (set_Events _ (set_Escrows _ s3)) (account e))
    with (free_balance s3 (account e)).
  cbn [Escrows set_Events set_Escrows]. rewrite lookup_insert_eq. cbn [option_map].
  unfold payout_status. destruct (status e); try discriminate; simpl;
    destruct (free_balance s3 (account e) =? 0); reflexivity.
Qed.

Lemma bulk_payout_ok_balances_witness :
  let s := scenario_funded in
  let s' := snd (bulk_payout mock_cfg 1 0 [5; 6] [50; 50] scenario_funded) in
  let e := scenario_escrow in
  Escrows s !! 0 = Some e /\
  (account e ∉ [reputation_oracle e; recording_oracle e; 5; 6]) /\
  bulk_payout mock_cfg 1 0 [5; 6] [50; 50] s = (Ok tt, s') /\
  (let '(rf, cf, finals) := finalize_payouts e [50; 50] in
  length [5; 6] = length [50; 50] /\
  (forall x, free_balance s' x =
     free_balance s x
     + (if x =? reputation_oracle e then rf else 0)
     + (if x =? recording_oracle e then cf else 0)
     + sum_Z (map snd (List.filter (fun p => p.1 =? x) (combine [5; 6] finals)))
     - (if x =? account e then rf + cf + sum_Z finals else 0)) /\
  option_map status (Escrows s' !! 0) =
    Some (if free_balance s' (account e) =? 0 then Paid else Partial)).
Proof.
  intros s s' e.
  assert (Hnin : account e ∉ [reputation_oracle e; recording_oracle e; 5; 6]).
  { intros Hin. apply list_elem_of_In in Hin. vm_compute in Hin. intuition discriminate. }
  assert (H : bulk_payout mock_cfg 1 0 [5; 6] [50; 50] s = (Ok tt, s'))
    by (vm_compute; reflexivity).
  split; [exact scenario_funded_escrow|]. split; [exact Hnin|]. split; [exact H|].
  exact (bulk_payout_ok_balances mock_cfg 1 0 [5; 6] [50; 50] e s s'
           scenario_funded_escrow Hnin H).
Defined.

(* ------------------------------------------------------------------ *)
(** ** [binary_search] on the sorted escrow lists *)

Lemma sorted_nth_lt (l : list Z) (i k : nat) :
  StronglySorted Z.lt l -> (i < k < length l)%nat -> nth i l 0 < nth k l 0.
Proof.
  intros Hs. revert i k. induction Hs as [|a l Hs IH Ha]; intros i k Hik; simpl in *; [lia|].
  destruct i as [|i], k as [|k]; try lia.
  - rewrite Forall_forall in Ha. apply Ha. apply list_elem_of_In, nth_In. lia.
  - apply IH. lia.
Qed.

Lemma binary_search_loop_S (fuel : nat) (l : list Z) (x : Z) (base size : nat) :
  binary_search_loop (S fuel) l x base size =
    if (1 <? size)%nat
    then binary_search_loop fuel l x
           (if x <? nth (base + size / 2) l 0 then base else (base + size / 2)%nat)
           (size - size / 2)
    else base.
Proof. reflexivity. Qed.

Lemma binary_search_loop_find (fuel : nat) (l : list Z) (x : Z) (base size j : nat) :
  StronglySorted Z.lt l -> nth j l 0 = x ->
  (base <= j < base + size)%nat -> (base + size <= length l)%nat -> (size <= S fuel)%nat ->
  binary_search_loop fuel l x base size = j.
Proof.
  intros Hs Hj. revert base size.
  induction fuel as [|fuel IH]; intros base size Hb Hl Hf.
  - simpl. lia.
  - rewrite binary_search_loop_S.
    destruct (1 <? size)%nat eqn:H1.
    + apply Nat.ltb_lt in H1.
      assert (Hh : (1 <= size / 2 /\ size / 2 <= size - size / 2)%nat).
      { split; [apply Nat.div_le_lower_bound; lia|].
        pose proof (Nat.Div0.mul_div_le size 2). lia. }
      destruct (x <? nth (base + size / 2) l 0) eqn:Hx.
      * apply Z.ltb_lt in Hx. apply IH; try lia.
        destruct (Nat.lt_ge_cases j (base + size / 2)%nat) as [Hlt|Hge]; [lia|].
        exfalso. destruct (Nat.eq_dec j (base + size / 2)%nat) as [Heq|Hne].
        { rewrite <- Heq in Hx. lia. }
        pose proof (sorted_nth_lt l (base + size / 2)%nat j Hs ltac:(lia)). lia.
      * apply Z.ltb_ge in Hx. apply IH; try lia.
        destruct (Nat.lt_ge_cases j (base + size / 2)%nat) as [Hlt|Hge]; [|lia].
        exfalso. pose proof (sorted_nth_lt l j (base + size / 2)%nat Hs ltac:(lia)). lia.
    + apply Nat.ltb_ge in H1. lia.
Qed.

Lemma binary_search_complete (l : list Z) (x : Z) :
  StronglySorted Z.lt l -> x ∈ l -> exists i, binary_search l x = inl i.
Proof.
  intros Hs Hx. apply list_elem_of_In, In_nth with (d := 0) in Hx as (j & Hj & Hjx).
  destruct l as [|a l']; [simpl in Hj; lia|].
  exists j. unfold binary_search.
  rewrite (binary_search_loop_find _ _ x 0 _ j Hs Hjx) by lia.
  rewrite Hjx, Z.eqb_refl. reflexivity.
Qed.

Lemma binary_search_inl (l : list Z) (x : Z) (i : nat) :
  binary_search l x = inl i -> nth i l 0 = x.
Proof.
  unfold binary_search. destruct l as [|a l']; [discriminate|].
  set (b := binary_search_loop _ _ _ _ _).
  destruct (nth b (a :: l') 0 =? x) eqn:He.
  - intros [= <-]. apply Z.eqb_eq, He.
  - destruct (_ <? x); discriminate.
Qed.

Lemma vec_remove_nil (i : nat) : vec_remove i [] = [].
Proof. destruct i; reflexivity. Qed.

Lemma vec_remove_cons (i : nat) (a : Z) (l : list Z) :
  vec_remove i (a :: l) = match i with O => l | S i' => a :: vec_remove i' l end.
Proof. destruct i; reflexivity. Qed.

Lemma vec_remove_elem (i : nat) (l : list Z) (x : Z) : x ∈ vec_remove i l -> x ∈ l.
Proof.
  revert i. induction l as [|a l IH]; intros i; [rewrite vec_remove_nil; auto|].
  rewrite vec_remove_cons. destruct i as [|i].
  - apply list_elem_of_further.
  - rewrite !elem_of_cons. intros [->|H]; [left; reflexivity | right; exact (IH i H)].
Qed.

Lemma vec_remove_keep (i : nat) (l : list Z) (x : Z) :
  x ∈ l -> x <> nth i l 0 -> x ∈ vec_remove i l.
Proof.
  revert i. induction l as [|a l IH]; intros i; [intros H; inversion H|].
  rewrite vec_remove_cons, elem_of_cons. destruct i as [|i]; simpl.
  - intros [->|H] Hne; [congruence | exact H].
  - intros [->|H] Hne; rewrite elem_of_cons; [left; reflexivity | right; exact (IH i H Hne)].
Qed.

Lemma vec_remove_sorted (i : nat) (l : list Z) :
  StronglySorted Z.lt l -> StronglySorted Z.lt (vec_remove i l).
Proof.
  intros Hs. revert i. induction Hs as [|a l Hs IH Ha]; intros i;
    [rewrite vec_remove_nil; constructor|].
  rewrite vec_remove_cons. destruct i as [|i]; [exact Hs|].
  constructor; [apply IH|].
  rewrite Forall_forall in *. intros x Hx. apply Ha.
  exact (vec_remove_elem i l x Hx).
Qed.

(* ------------------------------------------------------------------ *)
(** ** How [abort] ends *)

Lemma abort_ok_shape (who : AccountId) (id : EscrowId) (s s' : State) :
  abort who id s = (Ok tt, s') ->
  exists e i, Escrows s !! id = Some e /\
    binary_search (default [] (EscrowFactory s !! factory e)) id = inl i /\
    Escrows s' = delete id (Escrows s) /\
    EscrowFactory s' = <[factory e := vec_remove i (default [] (EscrowFactory s !! factory e))]>
                         (delete (factory e) (EscrowFactory s)) /\
    FactoryCounter s' = FactoryCounter s /\ Counter s' = Counter s.
Proof.
  unfold abort, get_escrow, ensure_trusted, get_balance, ensure,
    bind, get, ret, fail, modify. cbv beta iota.
  destruct (Escrows s !! id) as [e|] eqn:He; [|discriminate].
  destruct (is_trusted_handler s id who); [|discriminate].
  destruct (negb _); [|discriminate].
  assert (Fin : forall b, (match binary_search (default [] (EscrowFactory (set_Balances b s) !!
      factory e)) id with
    | inl index => fun s0 : State => (Ok tt, set_EscrowFactory
        (<[factory e := vec_remove index (default [] (EscrowFactory (set_Balances b s) !!
             factory e))]> (EscrowFactory s0)) s0)
    | inr _ => fail MissingEscrow
    end (set_EscrowFactory (delete (factory e) (EscrowFactory (set_Balances b s)))
          (set_HandlersCount (delete id (HandlersCount (set_Balances b s)))
            (set_TrustedHandlers (remove_prefix id (TrustedHandlers (set_Balances b s)))
              (set_FinalResults (delete id (FinalResults (set_Balances b s)))
                (set_Escrows (delete id (Escrows (set_Balances b s))) (set_Balances b s)))))))
      = (Ok tt, s') ->
    exists e i, Escrows s !! id = Some e /\ binary_search (default [] (EscrowFactory s !! factory e)) id = inl i /\
    Escrows s' = delete id (Escrows s) /\
    EscrowFactory s' = <[factory e := vec_remove i (default [] (EscrowFactory s !! factory e))]>
                         (delete (factory e) (EscrowFactory s)) /\
    FactoryCounter s' = FactoryCounter s /\ Counter s' = Counter s).
  { intros b. simpl. destruct (binary_search _ id) as [i|i] eqn:B; [|discriminate].
    intros [= <-]. exists e, i. repeat split; assumption. }
  rewrite He in Fin. intros H.
  destruct (0 <? free_balance s (account e)).
  - destruct (transfer (account e) (canceller e) (free_balance s (account e)) s)
      as [[[]|err] s1] eqn:T; [|discriminate].
    pose proof (transfer_frame (account e) (canceller e) (free_balance s (account e)) s) as F.
    rewrite T in F. simpl in F. rewrite F in H. exact (Fin _ H).
  - apply (Fin (Balances s)). destruct s; exact H.
Qed.

Lemma abort_err_shape (who : AccountId) (id : EscrowId) (s s' : State) (err : Error) :
  abort who id s = (Err err, s') ->
  s' = s \/
  (err = MissingEscrow /\
   exists e i, Escrows s !! id = Some e /\
     binary_search (default [] (EscrowFactory s !! factory e)) id = inr i /\
     Escrows s' = delete id (Escrows s) /\
     FinalResults s' = delete id (FinalResults s) /\
     TrustedHandlers s' = remove_prefix id (TrustedHandlers s) /\
     HandlersCount s' = delete id (HandlersCount s) /\
     EscrowFactory s' = delete (factory e) (EscrowFactory s)).
Proof.
  unfold abort, get_escrow, ensure_trusted, get_balance, ensure,
    bind, get, ret, fail, modify. cbv beta iota.
  destruct (Escrows s !! id) as [e|] eqn:He; [|intros [= _ <-]; left; reflexivity].
  destruct (is_trusted_handler s id who); [|intros [= _ <-]; left; reflexivity].
  destruct (negb _); [|intros [= _ <-]; left; reflexivity].
  assert (Fin : forall b, (match binary_search (default [] (EscrowFactory (set_Balances b s) !!
      factory e)) id with
    | inl index => fun s0 : State => (Ok tt, set_EscrowFactory
        (<[factory e := vec_remove index (default [] (EscrowFactory (set_Balances b s) !!
             factory e))]> (EscrowFactory s0)) s0)
    | inr _ => fail MissingEscrow
    end (set_EscrowFactory (delete (factory e) (EscrowFactory (set_Balances b s)))
          (set_HandlersCount (delete id (HandlersCount (set_Balances b s)))
            (set_TrustedHandlers (remove_prefix id (TrustedHandlers (set_Balances b s)))
              (set_FinalResults (delete id (FinalResults (set_Balances b s)))
                (set_Escrows (delete id (Escrows (set_Balances b s))) (set_Balances b s)))))))
      = (Err err, s') ->
    s' = s \/
    (err = MissingEscrow /\
     exists e0 i, Some e = Some e0 /\
     binary_search (default [] (EscrowFactory s !! factory e0)) id = inr i /\
     Escrows s' = delete id (Escrows s) /\
     FinalResults s' = delete id (FinalResults s) /\
     TrustedHandlers s' = remove_prefix id (TrustedHandlers s) /\
     HandlersCount s' = delete id (HandlersCount s) /\
     EscrowFactory s' = delete (factory e0) (EscrowFactory s))).
  { intros b. simpl. destruct (binary_search _ id) as [i|i] eqn:B; [discriminate|].
    unfold fail. intros [= <- <-]. right. split; [reflexivity|].
    exists e, i. repeat split; assumption. }
  destruct (0 <? free_balance s (account e)).
  - destruct (transfer (account e) (canceller e) (free_balance s (account e)) s)
      as [[[]|err'] s1] eqn:T.
    + pose proof (transfer_frame (account e) (canceller e) (free_balance s (account e)) s) as F.
      rewrite T in F. simpl in F. rewrite F. exact (Fin _).
    + intros [= _ <-]. left. exact (transfer_err_state _ _ _ _ _ _ T).
  - intros H. apply (Fin (Balances s)). destruct s; exact H.
Qed.

(* ------------------------------------------------------------------ *)
(** ** The registry invariant *)

Lemma sorted_snoc (l : list Z) (c : Z) :
  StronglySorted Z.lt l -> Forall (fun k => k < c) l -> StronglySorted Z.lt (l ++ [c]).
Proof.
  induction 1 as [|a l Hs IH Ha]; intros Hc; simpl; [repeat constructor|].
  inversion Hc as [|? ? Hac Hlc]; subst.
  constructor; [exact (IH Hlc)|].
  apply Forall_app. split; [exact Ha | constructor; [exact Hac | constructor]].
Qed.

Lemma wrap_128_succ (x : Z) : 0 <= x -> x + 1 <= U128_MAX -> wrap 128 (x + 1) = x + 1.
Proof. unfold wrap, U128_MAX. intros. apply Z.mod_small. lia. Qed.

Ltac inv_split := refine (conj _ (conj _ (conj _ (conj _ _)))).

Lemma registry_inv_weaken (n : nat) (s : State) : registry_inv n s -> registry_inv (S n) s.
Proof.
  unfold registry_inv. intros (HC & HF & Hk & Hl & He). inv_split; try lia; assumption.
Qed.

Lemma registry_create_factory (n : nat) (who : AccountId) (s : State) :
  registry_inv n s -> Z.of_nat (S n) <= U128_MAX ->
  registry_inv (S n) (snd (create_factory who s)).
Proof.
  unfold registry_inv. intros (HC & HF & Hk & Hl & He) Hn.
  unfold create_factory, bind, get, modify, deposit_event. simpl.
  rewrite wrap_128_succ by lia.
  inv_split; try lia.
  - intros f. destruct (Z.eq_dec f (FactoryCounter s)) as [->|Hne]; [lia|].
    rewrite lookup_insert_ne by congruence. intros H. specialize (Hk f H). lia.
  - intros f l. destruct (Z.eq_dec f (FactoryCounter s)) as [->|Hne].
    + rewrite lookup_insert_eq. intros [= <-]. split; constructor.
    + rewrite lookup_insert_ne by congruence. apply Hl.
  - intros id e H. destruct (He id e H) as (l & Hf & Hin). exists l.
    rewrite lookup_insert_ne; [split; assumption|].
    intros Heq. assert (Hlt := Hk (factory e) ltac:(rewrite Hf; discriminate)). lia.
Qed.

Lemma registry_create (cfg : Config) (n : nat) who u h f rep rec ps qs (s : State) :
  registry_inv n s -> Z.of_nat (S n) <= U128_MAX ->
  registry_inv (S n) (snd (create cfg who u h f rep rec ps qs s)).
Proof.
  intros Hinv Hn.
  destruct (create cfg who u h f rep rec ps qs s) as [[[]|err] s'] eqn:H; simpl.
  2: { rewrite (create_err_state _ _ _ _ _ _ _ _ _ _ _ _ H). apply registry_inv_weaken, Hinv. }
  destruct (create_ok_inv cfg who u h f rep rec ps qs s s' H)
    as (_ & _ & (l & Hf & _) & _ & ->).
  unfold registry_inv in *. destruct Hinv as (HC & HF & Hk & Hl & He). simpl.
  rewrite wrap_128_succ by lia. rewrite Hf. simpl.
  inv_split; try lia.
  - intros f0. destruct (Z.eq_dec f0 f) as [->|Hne].
    + intros _. apply Hk. rewrite Hf. discriminate.
    + rewrite lookup_insert_ne by congruence. apply Hk.
  - intros f0 l0. destruct (Z.eq_dec f0 f) as [->|Hne].
    + rewrite lookup_insert_eq. intros [= <-]. destruct (Hl f l Hf) as [S1 S2]. split.
      * apply sorted_snoc; assumption.
      * apply Forall_app. split.
        -- eapply Forall_impl; [exact S2 | simpl; intros; lia].
        -- repeat constructor. lia.
    + rewrite lookup_insert_ne by congruence. intros H0.
      destruct (Hl f0 l0 H0) as [S1 S2]. split; [exact S1|].
      eapply Forall_impl; [exact S2 | simpl; intros; lia].
  - intros id e. destruct (Z.eq_dec id (Counter s)) as [->|Hne].
    + rewrite lookup_insert_eq. intros [= <-]. simpl. exists (l ++ [Counter s]).
      rewrite lookup_insert_eq. split; [reflexivity|].
      apply list_elem_of_In, in_or_app. right. left. reflexivity.
    + rewrite lookup_insert_ne by congruence. intros H0.
      destruct (He id e H0) as (l0 & Hf0 & Hin).
      destruct (Z.eq_dec (factory e) f) as [Heq|Hfe].
      * rewrite Heq in Hf0 |- *. rewrite Hf in Hf0. injection Hf0 as <-.
        exists (l ++ [Counter s]). rewrite lookup_insert_eq. split; [reflexivity|].
        apply list_elem_of_In, in_or_app. left. apply list_elem_of_In, Hin.
      * exists l0. rewrite lookup_insert_ne by congruence. split; assumption.
Qed.

Lemma registry_abort (n : nat) (who : AccountId) (id : EscrowId) (s : State) :
  registry_inv n s -> Z.of_nat (S n) <= U128_MAX ->
  registry_inv (S n) (snd (abort who id s)).
Proof.
  intros Hinv Hn.
  destruct (abort who id s) as [[[]|err] s'] eqn:H; simpl.
  - destruct (abort_ok_shape who id s s' H) as (e & i & He0 & B & HE & HEF & HFC & HC').
    unfold registry_inv in *. destruct Hinv as (HC & HF & Hk & Hl & He).
    destruct (He id e He0) as (l & Hf & Hin).
    unfold EscrowId, FactoryId in *. rewrite Hf in B, HEF. simpl in B, HEF.
    pose proof (binary_search_inl l id i B) as Hnth.
    rewrite HC', HFC, HEF, HE.
    inv_split; try lia.
    + intros f0. destruct (Z.eq_dec f0 (factory e)) as [->|Hne].
      * intros _. apply Hk. rewrite Hf. discriminate.
      * rewrite lookup_insert_ne, lookup_delete_ne by congruence. apply Hk.
    + intros f0 l0. destruct (Z.eq_dec f0 (factory e)) as [->|Hne].
      * rewrite lookup_insert_eq. intros [= <-]. destruct (Hl _ l Hf) as [S1 S2]. split.
        -- apply vec_remove_sorted, S1.
        -- rewrite Forall_forall in S2 |- *. intros x Hx. apply S2, (vec_remove_elem i), Hx.
      * rewrite lookup_insert_ne, lookup_delete_ne by congruence. apply Hl.
    + intros id' e'. destruct (Z.eq_dec id' id) as [->|Hne].
      * rewrite lookup_delete_eq. discriminate.
      * rewrite lookup_delete_ne by congruence. intros H0.
        destruct (He id' e' H0) as (l' & Hf' & Hin').
        destruct (Z.eq_dec (factory e') (factory e)) as [Heq|Hfe].
        -- rewrite Heq in Hf' |- *. rewrite Hf in Hf'. injection Hf' as <-.
           exists (vec_remove i l). rewrite lookup_insert_eq. split; [reflexivity|].
           apply vec_remove_keep; [exact Hin' | congruence].
        -- exists l'. rewrite lookup_insert_ne, lookup_delete_ne by congruence.
           split; assumption.
  - destruct (abort_err_shape who id s s' err H) as [->|(_ & e & i & He0 & B & _)].
    + apply registry_inv_weaken, Hinv.
    + exfalso. destruct Hinv as (_ & _ & _ & Hl & He).
      destruct (He id e He0) as (l & Hf & Hin).
      unfold EscrowId, FactoryId in *. rewrite Hf in B. simpl in B.
      destruct (binary_search_complete l id (proj1 (Hl _ l Hf)) Hin) as [j Hj].
      congruence.
Qed.

Lemma registry_other (cfg : Config) (n : nat) (c : Call) (s : State) :
  match c with
  | call_create_factory _ | call_create _ _ _ _ _ _ _ _ | call_abort _ _ => False
  | _ => True
  end ->
  registry_inv n s -> Z.of_nat (S n) <= U128_MAX -> registry_inv (S n) (exec cfg c s).
Proof.
  unfold registry_inv. intros Hc (HC & HF & Hk & Hl & He) Hn.
  destruct (dispatch_same_registry cfg c Hc s) as (REF & RFC & RC).
  fold (exec cfg c s) in REF, RFC, RC.
  rewrite REF, RFC, RC.
  destruct (exec_effect cfg c s) as [HE HT HC' | id0 who hs Hwho HE HT HC'
      | e0 hs Hst HE HT HC' | id0 HE HT HC' | id0 e0 st He0 Hf HE HT HC'].
  all: inv_split; try lia; try assumption.
  - rewrite HE. exact He.
  - rewrite HE. exact He.
  - exfalso. rewrite wrap_128_succ in HC' by lia. lia.
  - intros id e. rewrite HE. destruct (Z.eq_dec id id0) as [->|Hne].
    + rewrite lookup_delete_eq. discriminate.
    + rewrite lookup_delete_ne by congruence. apply He.
  - intros id e. rewrite HE. destruct (Z.eq_dec id id0) as [->|Hne].
    + rewrite lookup_insert_eq. intros [= <-]. exact (He id0 e0 He0).
    + rewrite lookup_insert_ne by congruence. apply He.
Qed.

Lemma registry_inv_reachable (cfg : Config) (n : nat) (s : State) :
  reachable cfg n s -> Z.of_nat n <= U128_MAX -> registry_inv n s.
Proof.
  induction 1 as [balances t | n s c _ IH]; intros Hn.
  - unfold registry_inv. inv_split; simpl; try lia.
    + intros f. rewrite lookup_empty. congruence.
    + intros f l. rewrite lookup_empty. discriminate.
    + intros id e. rewrite lookup_empty. discriminate.
  - specialize (IH ltac:(lia)).
    destruct c as [who | who u h f rep rec ps qs | | who id | | | | | | |].
    1: exact (registry_create_factory n who s IH Hn).
    1: exact (registry_create cfg n who u h f rep rec ps qs s IH Hn).
    2: exact (registry_abort n who id s IH Hn).
    all: apply (registry_other cfg n); [exact I | exact IH | exact Hn].
Qed.

(** A failing [abort] from a state satisfying [registry_inv] leaves the
    state unchanged: the escrow is always found in its factory list. *)
Lemma abort_err_registry (n : nat) (who : AccountId) (id : EscrowId) (s s' : State)
    (err : Error) :
  registry_inv n s -> abort who id s = (Err err, s') -> s' = s.
Proof.
  intros Hinv H.
  destruct (abort_err_shape who id s s' err H) as [->|(_ & e & i & He0 & B & _)];
    [reflexivity|].
  exfalso. destruct Hinv as (_ & _ & _ & Hl & He).
  destruct (He id e He0) as (l & Hf & Hin).
  unfold EscrowId, FactoryId in *. rewrite Hf in B. simpl in B.
  destruct (binary_search_complete l id (proj1 (Hl _ l Hf)) Hin) as [j Hj].
  congruence.
Qed.

(** X13.  In every state reached from genesis by at most [U128_MAX]
    calls, an [abort] that fails leaves the whole state unchanged: the
    branch where the escrow is missing from its factory list, after the
    escrow has already been removed, is never taken. *)
Theorem abort_err_unchanged_reachable (cfg : Config) (n : nat) (s s' : State)
    (who : AccountId) (id : EscrowId) (err : Error) :
  reachable cfg n s -> Z.of_nat n <= U128_MAX ->
  abort who id s = (Err err, s') -> s' = s.
Proof.
  intros R Hn H.
  exact (abort_err_registry n who id s s' err (registry_inv_reachable cfg n s R Hn) H).
Qed.

Lemma abort_err_unchanged_reachable_witness :
  fst (abort 9 0 scenario_created) = Err NonTrustedAccount /\
  snd (abort 9 0 scenario_created) = scenario_created.
Proof.
  split; [vm_compute; reflexivity|].
  apply (abort_err_unchanged_reachable mock_cfg 2 scenario_created _ 9 0 NonTrustedAccount).
  - exact scenario_created_reachable.
  - vm_compute. discriminate.
  - vm_compute. reflexivity.
Defined.

(** X14.  In every state reached from genesis by at most [U128_MAX]
    calls, every stored escrow is found by [binary_search] in the list of
    its factory, at an index holding its id. *)
Theorem escrow_indexed_reachable (cfg : Config) (n : nat) (s : State)
    (id : EscrowId) (e : EscrowInfo) :
  reachable cfg n s -> Z.of_nat n <= U128_MAX -> Escrows s !! id = Some e ->
  exists l i, EscrowFactory s !! factory e = Some l /\
    binary_search l id = inl i /\ nth i l 0 = id.
Proof.
  intros R Hn He0.
  destruct (registry_inv_reachable cfg n s R Hn) as (_ & _ & _ & Hl & He).
  destruct (He id e He0) as (l & Hf & Hin).
  destruct (binary_search_complete l id (proj1 (Hl _ l Hf)) Hin) as [i Hi].
  exists l, i. split; [exact Hf|]. split; [exact Hi|]. exact (binary_search_inl l id i Hi).
Qed.

Lemma escrow_indexed_reachable_witness :
  exists e, Escrows scenario_created !! 0 = Some e /\
  exists l i, EscrowFactory scenario_created !! factory e = Some l /\
    binary_search l 0 = inl i /\ nth i l 0 = 0.
Proof.
  destruct (Escrows scenario_created !! 0) as [e|] eqn:He;
    [|vm_compute in He; discriminate].
  exists e. split; [reflexivity|].
  apply (escrow_indexed_reachable mock_cfg 2 scenario_created 0 e).
  - exact scenario_created_reachable.
  - vm_compute. discriminate.
  - exact He.
Defined.

(** X15.  In every state reached from genesis by at most [U128_MAX]
    calls, every factory id in [EscrowFactory] is below [FactoryCounter],
    and its escrow list is strictly increasing with every entry below
    [Counter]. *)
Theorem factory_list_sorted_reachable (cfg : Config) (n : nat) (s : State)
    (f : FactoryId) (l : list EscrowId) :
  reachable cfg n s -> Z.of_nat n <= U128_MAX -> EscrowFactory s !! f = Some l ->
  f < FactoryCounter s /\ StronglySorted Z.lt l /\ Forall (fun k => k < Counter s) l.
Proof.
  intros R Hn Hf.
  destruct (registry_inv_reachable cfg n s R Hn) as (_ & _ & Hk & Hl & _).
  split; [apply Hk; rewrite Hf; discriminate|]. exact (Hl f l Hf).
Qed.

Lemma factory_list_sorted_reachable_witness :
  EscrowFactory scenario_created !! 0 = Some [0] /\
  0 < FactoryCounter scenario_created /\ StronglySorted Z.lt [0] /\
  Forall (fun k => k < Counter scenario_created) [0].
Proof.
  split; [vm_compute; reflexivity|].
  apply (factory_list_sorted_reachable mock_cfg 2 scenario_created 0 [0]).
  - exact scenario_created_reachable.
  - vm_compute. discriminate.
  - vm_compute. reflexivity.
Defined.

(** X16.  An [abort] that fails on a stored escrow but changes the state
    has failed with [MissingEscrow] after removing the escrow record and
    the whole list of its factory; the other factories are untouched. *)
Theorem abort_err_drops_factory (who : AccountId) (id : EscrowId) (e : EscrowInfo)
    (s s' : State) (err : Error) :
  Escrows s !! id = Some e -> abort who id s = (Err err, s') -> s' <> s ->
  err = MissingEscrow /\ Escrows s' !! id = None /\
  EscrowFactory s' !! factory e = None /\
  (forall f, f <> factory e -> EscrowFactory s' !! f = EscrowFactory s !! f).
Proof.
  intros He H Hne.
  destruct (abort_err_shape who id s s' err H)
    as [Heq|(Herr & e0 & i & He0 & _ & HE & _ & _ & _ & HEF)]; [contradiction|].
  rewrite He in He0. injection He0 as <-.
  split; [exact Herr|]. rewrite HE, HEF.
  split; [apply lookup_delete_eq|]. split; [apply lookup_delete_eq|].
  intros f Hf. apply lookup_delete_ne. congruence.
Qed.


Lemma abort_err_drops_factory_witness :
  exists e, Escrows lost_factory_state !! 0 = Some e /\
  fst (abort 1 0 lost_factory_state) = Err MissingEscrow /\
  Escrows (snd (abort 1 0 lost_factory_state)) !! 0 = None /\
  EscrowFactory (snd (abort 1 0 lost_factory_state)) !! factory e = None /\
  (forall f, f <> factory e ->
     EscrowFactory (snd (abort 1 0 lost_factory_state)) !! f =
     EscrowFactory lost_factory_state !! f).
Proof.
  destruct (Escrows lost_factory_state !! 0) as [e|] eqn:He;
    [|vm_compute in He; discriminate].
  exists e. split; [reflexivity|]. split; [vm_compute; reflexivity|].
  apply (abort_err_drops_factory 1 0 e lost_factory_state _ MissingEscrow He).
  - vm_compute. reflexivity.
  - intros Heq. apply (f_equal Escrows) in Heq. vm_compute in Heq. discriminate.
Defined.





(** X18.  Right after [create_factory], [create] in the new factory
    succeeds whenever both strings fit in [StringLimit] and the stakes add
    up to at most 100. *)
Theorem create_in_new_factory (cfg : Config) (who who' : AccountId) u h rep rec ps qs
    (s : State) :
  (length u <= StringLimit cfg)%nat -> (length h <= StringLimit cfg)%nat ->
  sat_add_max U8_MAX (deconstruct ps) (deconstruct qs) <= 100 ->
  fst (create cfg who' u h (FactoryCounter s) rep rec ps qs (snd (create_factory who s)))
    = Ok tt.
Proof.
  intros H1 H2 H3.
  set (s1 := snd (create_factory who s)).
  assert (E : EscrowFactory s1 !! FactoryCounter s = Some []).
  { unfold s1. simpl. apply lookup_insert_eq. }
  unfold create, ensure, bind, get, modify, ret, fail, deposit_event.
  apply Nat.leb_le in H1, H2. apply Z.leb_le in H3.
  rewrite H1, H2, E, H3. reflexivity.
Qed.

Lemma create_in_new_factory_witness :
  fst (create mock_cfg 2 some_url dev_hash (FactoryCounter scenario_created) 3 4 10 10
         (snd (create_factory 1 scenario_created))) = Ok tt.
Proof.
  apply create_in_new_factory.
  - apply Nat.leb_le. vm_compute. reflexivity.
  - apply Nat.leb_le. vm_compute. reflexivity.
  - vm_compute. discriminate.
Defined.

(** X19.  In every state reached from genesis by at most [U128_MAX]
    calls, [create_factory] keeps the escrow list of every existing
    factory: the id it takes from [FactoryCounter] is always fresh. *)
Theorem create_factory_keeps_reachable (cfg : Config) (n : nat) (who : AccountId)
    (s : State) (f : FactoryId) (l : list EscrowId) :
  reachable cfg n s -> Z.of_nat n <= U128_MAX -> EscrowFactory s !! f = Some l ->
  EscrowFactory (exec cfg (call_create_factory who) s) !! f = Some l.
Proof.
  intros R Hn Hf.
  destruct (registry_inv_reachable cfg n s R Hn) as (_ & _ & Hk & _ & _).
  assert (Hlt : f < FactoryCounter s) by (apply Hk; rewrite Hf; discriminate).
  unfold exec, dispatch, create_factory, bind, get, modify, deposit_event. simpl.
  rewrite lookup_insert_ne by lia. exact Hf.
Qed.

Lemma create_factory_keeps_reachable_witness :
  EscrowFactory scenario_created !! 0 = Some [0] /\
  EscrowFactory (exec mock_cfg (call_create_factory 5) scenario_created) !! 0 = Some [0].
Proof.
  split; [vm_compute; reflexivity|].
  apply (create_factory_keeps_reachable mock_cfg 2 5 scenario_created 0 [0]).
  - exact scenario_created_reachable.
  - vm_compute. discriminate.
  - vm_compute. reflexivity.
Defined.

(** X20.  In every state reached from genesis by at most [U128_MAX]
    calls, [create], successful or not, keeps every stored escrow record:
    the id it takes from [Counter] is always fresh. *)
Theorem create_keeps_escrows_reachable (cfg : Config) (n : nat) who u h f rep rec ps qs
    (s : State) (id : EscrowId) (e : EscrowInfo) :
  reachable cfg n s -> Z.of_nat n <= U128_MAX -> Escrows s !! id = Some e ->
  Escrows (exec cfg (call_create who u h f rep rec ps qs) s) !! id = Some e.
Proof.
  intros R Hn He0.
  destruct (registry_inv_reachable cfg n s R Hn) as (_ & _ & _ & Hl & He).
  destruct (He id e He0) as (l & Hf & Hin).
  assert (Hlt : id < Counter s).
  { pose proof (proj2 (Hl _ l Hf)) as Hall. rewrite Forall_forall in Hall. exact (Hall id Hin). }
  unfold exec, dispatch.
  destruct (create cfg who u h f rep rec ps qs s) as [[[]|err] s'] eqn:H; simpl.
  - destruct (create_ok_inv cfg who u h f rep rec ps qs s s' H) as (_ & _ & _ & _ & ->).
    simpl. rewrite lookup_insert_ne by lia. exact He0.
  - rewrite (create_err_state _ _ _ _ _ _ _ _ _ _ _ _ H). exact He0.
Qed.

Lemma create_keeps_escrows_reachable_witness :
  exists e, Escrows scenario_created !! 0 = Some e /\
  Escrows (exec mock_cfg (call_create 1 some_url dev_hash 0 3 4 10 10) scenario_created) !! 0
    = Some e.
Proof.
  destruct (Escrows scenario_created !! 0) as [e|] eqn:He;
    [|vm_compute in He; discriminate].
  exists e. split; [reflexivity|].
  apply (create_keeps_escrows_reachable mock_cfg 2).
  - exact scenario_created_reachable.
  - vm_compute. discriminate.
  - exact He.
Defined.

(** X21.  Every call other than [create_factory], [create] and [abort],
    whether it succeeds or fails, leaves [EscrowFactory], [FactoryCounter]
    and [Counter] unchanged. *)
Theorem exec_same_registry (cfg : Config) (c : Call) (s : State) :
  match c with
  | call_create_factory _ | call_create _ _ _ _ _ _ _ _ | call_abort _ _ => False
  | _ => True
  end ->
  EscrowFactory (exec cfg c s) = EscrowFactory s /\
  FactoryCounter (exec cfg c s) = FactoryCounter s /\ Counter (exec cfg c s) = Counter s.
Proof.
  intros Hc. exact (dispatch_same_registry cfg c Hc s).
Qed.

Lemma exec_same_registry_witness :
  EscrowFactory (exec mock_cfg (call_cancel 1 0) scenario_funded) = EscrowFactory scenario_funded /\
  FactoryCounter (exec mock_cfg (call_cancel 1 0) scenario_funded) = FactoryCounter scenario_funded /\
  Counter (exec mock_cfg (call_cancel 1 0) scenario_funded) = Counter scenario_funded.
Proof.
  apply exec_same_registry. exact I.
Defined.
